(** * coyote2.py: the BLE driver of the Coyote 2.0 device, embedded in Rocq

    A shallow embedding of [src/coyote2.py]: the module constants, the
    exception classes, the [Coyote2] object with its lazily created
    [BleakClient], the session operations ([connect], [disconnect],
    [__aenter__], [__aexit__]) and the packed wire formats read and written
    through GATT characteristics.

    Python integers are unbounded, so they are [Z]; [bytes] is
    [list byte]; [float] is the binary64 primitive float.  An [async def]
    awaited to completion is a sequential computation over the state; a
    call of an [async def] that is never awaited is a coroutine value whose
    body does not run. *)

From Stdlib Require Import ZArith List Bool Lia.
From Stdlib.Strings Require Import String Ascii Byte.
From Stdlib Require Import Floats.
Import ListNotations.

Open Scope string_scope.
Open Scope list_scope.
Open Scope Z_scope.

(** ** Module constants (lines 8-15) *)

Definition BLE_DEVICE_NAME : string := "D-LAB ESTIM01".

Definition SERVICE_A_UUID : string := "955A180A-0FE2-F5AA-A094-84B8D4F3E8AD".

Definition BATTERY_LEVEL_UUID : string := "955A1500-0FE2-F5AA-A094-84B8D4F3E8AD".
Definition PWM_AB2_UUID : string := "955A1504-0FE2-F5AA-A094-84B8D4F3E8AD".
Definition PWM_A34_UUID : string := "955A1505-0FE2-F5AA-A094-84B8D4F3E8AD".
Definition PWM_B34_UUID : string := "955A1506-0FE2-F5AA-A094-84B8D4F3E8AD".

(** ** Exceptions

    The four [Coyote2Error] subclasses of lines 18-35, and the built-in
    exceptions the methods can raise: a failed [assert] (with its message,
    when it has one), [data[0]] on empty bytes, [int.to_bytes] on a value
    that does not fit, [int()] of a float that is not finite, and the
    transport's own error. *)

Inductive exn : Type :=
| AlreadyConnectedError
| NotConnectedError
| DeviceIsNotCoyote20Error
| DeviceNotFoundError
| AssertionError (msg : option string)
| IndexError
| OverflowError
| ValueError
| BleakError.

Inductive result (A : Type) : Type :=
| Raised (e : exn)
| Returned (a : A).

Arguments Raised {A} e.
Arguments Returned {A} a.

(** ** Python values whose truth value the code tests

    [if not found_device] and the return value of [__aexit__] are tested
    for truth.  [None] is false, a [bool] is itself, and a coroutine
    object, like every object without [__bool__] or [__len__], is true. *)

Inductive pyobj : Type :=
| PyNone
| PyBool (b : bool)
| PyCoroutine (qualname : string).

Definition truthy (o : pyobj) : bool :=
  match o with
  | PyNone => false
  | PyBool b => b
  | PyCoroutine _ => true
  end.

(** ** Integers and bytes *)

Module PyInt.

Definition byte_value (b : byte) : Z := Z.of_N (Byte.to_N b).

Definition byte_of_Z (z : Z) : byte :=
  match Byte.of_N (Z.to_N z) with
  | Some b => b
  | None => x00
  end.

(** [int.from_bytes(data, "little", signed=False)]: any length. *)
Fixpoint from_bytes (data : list byte) : Z :=
  match data with
  | [] => 0
  | b :: rest => byte_value b + 256 * from_bytes rest
  end.

Fixpoint to_bytes_digits (length : nat) (v : Z) : list byte :=
  match length with
  | O => []
  | S n => byte_of_Z (v mod 256) :: to_bytes_digits n (v / 256)
  end.

(** [v.to_bytes(length, "little", signed=False)]: [OverflowError] on a
    negative [v] and on a [v] that needs more than [length] bytes. *)
Definition to_bytes (v : Z) (length : nat) : result (list byte) :=
  if v <? 0 then Raised OverflowError
  else if 256 ^ Z.of_nat length <=? v then Raised OverflowError
  else Returned (to_bytes_digits length v).

(** [int(x)] of a float: truncation toward zero; [ValueError] on a NaN,
    [OverflowError] on an infinity. *)
Definition of_float (x : float) : result Z :=
  match Prim2SF x with
  | S754_zero _ => Returned 0
  | S754_infinity _ => Raised OverflowError
  | S754_nan => Raised ValueError
  | S754_finite s m e =>
      let magnitude :=
        if 0 <=? e then Z.shiftl (Z.pos m) e else Z.shiftr (Z.pos m) (- e) in
      Returned (if s then - magnitude else magnitude)
  end.

Definition to_spec_float (v : Z) : spec_float :=
  match v with
  | Z0 => S754_zero false
  | Zpos p => S754_finite false p 0
  | Zneg p => S754_finite true p 0
  end.

(** [a / b] on two ints with [b] not zero: the correctly rounded quotient
    as a float, [OverflowError] when it is too large for one. *)
Definition true_div (a b : Z) : result float :=
  match SFdiv prec emax (to_spec_float a) (to_spec_float b) with
  | S754_infinity _ => Raised OverflowError
  | q => Returned (SF2Prim q)
  end.

End PyInt.

(** ** The wire formats (the arithmetic of lines 100-104, 113-118, 127-133
    and 139-146) *)

(** Lines 113-118 of [_write_real_strength]. *)
Definition real_strength_bytes (real_strength_a real_strength_b : Z) : result (list byte) :=
  let data_int := 0 in
  let data_int := data_int + real_strength_a in
  let data_int := Z.shiftl data_int 11 in
  let data_int := data_int + real_strength_b in
  let data_int := Z.shiftl data_int 2 in
  PyInt.to_bytes data_int 3.

(** Lines 100-104 of [_get_real_strength]. *)
Definition real_strength_of_bytes (data : list byte) : Z * Z :=
  let data_int := PyInt.from_bytes data in
  let real_strength_a := Z.shiftr data_int 13 in
  let real_strength_b_mask := 2047 (* 0b0000000000011111111111 *) in
  let real_strength_b := Z.land (Z.shiftr data_int 2) real_strength_b_mask in
  (real_strength_a, real_strength_b).

(** Lines 139-146 of [__write_wave]. *)
Definition wave_bytes (x y z : Z) : result (list byte) :=
  let data_int := 0 in
  let data_int := data_int + x in
  let data_int := Z.shiftl data_int 10 in
  let data_int := data_int + y in
  let data_int := Z.shiftl data_int 5 in
  let data_int := data_int + z in
  let data_int := Z.shiftl data_int 2 in
  PyInt.to_bytes data_int 3.

(** Lines 127-133 of [__read_wave]. *)
Definition wave_of_bytes (data : list byte) : Z * Z * Z :=
  let data_int := PyInt.from_bytes data in
  let x := Z.shiftr data_int 19 in
  let y_mask := 1023 (* 0b000001111111111 *) in
  let y := Z.land (Z.shiftr data_int 9) y_mask in
  let z_mask := 31 (* 0b00000000000000011111 *) in
  let z := Z.land (Z.shiftr data_int 2) z_mask in
  (x, y, z).

(** Line 94 of [get_battery_level]: [data[0]]. *)
Definition battery_of_bytes (data : list byte) : result Z :=
  match data with
  | [] => Raised IndexError
  | b :: _ => Returned (PyInt.byte_value b)
  end.

(** Line 108 of [get_strength] and line 122 of [write_strength], per
    channel. *)
Definition strength_of_real (real_strength : Z) : result float :=
  PyInt.true_div real_strength 7.

Definition real_of_strength (strength : float) : result Z :=
  PyInt.of_float (strength * 7)%float.

(** [str.lower()] on the ASCII letters, all that the identifiers hold. *)
Definition lower_ascii (c : ascii) : ascii :=
  let n := nat_of_ascii c in
  if (65 <=? n)%nat && (n <=? 90)%nat then ascii_of_nat (n + 32) else c.

Fixpoint lower (s : string) : string :=
  match s with
  | EmptyString => EmptyString
  | String c rest => String (lower_ascii c) (lower rest)
  end.

(** ** The transport: [bleak]

    [BleakScanner] and [BleakClient] are the external collaborator.  The
    model keeps what the driver observes of them: what a scan by name
    finds, whether a connection attempt succeeds, the services the peer
    enumerates, the payload a characteristic returns on a read, and the
    sequence of calls the driver has made so far.  A client is created
    disconnected, for the address it is given; [connect] discovers the
    services; [disconnect] never fails; a read or a write on a client that
    is not connected fails with the transport's own error. *)

Module Bleak.

Inductive call : Type :=
| FindDeviceByName (name : string)
| Connect
| Disconnect
| ReadGattChar (uuid : string)
| WriteGattChar (uuid : string) (data : list byte).

Record world : Type := {
  advertised : string -> option string;
  reachable : bool;
  peer_services : list string;
  characteristic : string -> list byte;
  calls : list call
}.

Definition log (c : call) (w : world) : world :=
  {| advertised := advertised w;
     reachable := reachable w;
     peer_services := peer_services w;
     characteristic := characteristic w;
     calls := calls w ++ [c] |}.

Record BleakClient : Type := {
  address_or_ble_device : option string;
  is_connected : bool;
  services : list string
}.

Definition new (address : option string) : BleakClient :=
  {| address_or_ble_device := address; is_connected := false; services := [] |}.

Definition find_device_by_name (name : string) (w : world)
  : option string * world :=
  (advertised w name, log (FindDeviceByName name) w).

Definition connect (c : BleakClient) (w : world)
  : result unit * BleakClient * world :=
  match address_or_ble_device c with
  | Some _ =>
      if reachable w
      then (Returned tt,
            {| address_or_ble_device := address_or_ble_device c;
               is_connected := true;
               services := peer_services w |},
            log Connect w)
      else (Raised BleakError, c, log Connect w)
  | None => (Raised BleakError, c, log Connect w)
  end.

Definition disconnect (c : BleakClient) (w : world)
  : result unit * BleakClient * world :=
  (Returned tt,
   {| address_or_ble_device := address_or_ble_device c;
      is_connected := false;
      services := services c |},
   log Disconnect w).

Definition read_gatt_char (uuid : string) (c : BleakClient) (w : world)
  : result (list byte) * BleakClient * world :=
  if is_connected c
  then (Returned (characteristic w uuid), c, log (ReadGattChar uuid) w)
  else (Raised BleakError, c, log (ReadGattChar uuid) w).

Definition write_gatt_char (uuid : string) (data : list byte)
  (c : BleakClient) (w : world) : result unit * BleakClient * world :=
  if is_connected c
  then (Returned tt, c, log (WriteGattChar uuid data) w)
  else (Raised BleakError, c, log (WriteGattChar uuid data) w).

End Bleak.

(** ** The [Coyote2] object and the monad of its methods *)

Record Coyote2 : Type := {
  address : option string;
  __client : option Bleak.BleakClient
}.

(** [Coyote2.__init__] (lines 39-41). *)
Definition __init__ (address : option string) : Coyote2 :=
  {| address := address; __client := None |}.

Record state : Type := {
  self : Coyote2;
  world : Bleak.world
}.

Definition M (A : Type) : Type := state -> result A * state.

Definition ret {A} (a : A) : M A := fun s => (Returned a, s).

Definition raise {A} (e : exn) : M A := fun s => (Raised e, s).

Definition bind {A B} (m : M A) (k : A -> M B) : M B :=
  fun s =>
    match m s with
    | (Raised e, s') => (Raised e, s')
    | (Returned a, s') => k a s'
    end.

Notation "x <- m ;; k" := (bind m (fun x => k))
  (at level 61, m at next level, right associativity).
Notation "m ;; k" := (bind m (fun _ => k))
  (at level 61, right associativity).

Definition lift {A} (r : result A) : M A := fun s => (r, s).

(** [assert cond, msg]. *)
Definition assert_ (cond : bool) (msg : option string) : M unit :=
  if cond then ret tt else raise (AssertionError msg).

Definition get_address : M (option string) := fun s => (Returned (address (self s)), s).

Definition set_address (a : option string) : M unit :=
  fun s =>
    (Returned tt,
     {| self := {| address := a; __client := __client (self s) |};
        world := world s |}).

(** The property [client] (lines 50-56): the handle is created on first
    access, for the address known then, and kept. *)
Definition client : M Bleak.BleakClient :=
  fun s =>
    match __client (self s) with
    | None =>
        let c := Bleak.new (address (self s)) in
        (Returned c,
         {| self := {| address := address (self s); __client := Some c |};
            world := world s |})
    | Some c => (Returned c, s)
    end.

(** A method call on [self.client]: the one client object is updated in
    place. *)
Definition on_client {A}
  (method : Bleak.BleakClient -> Bleak.world -> result A * Bleak.BleakClient * Bleak.world)
  : M A :=
  c <- client ;;
  fun s =>
    let '(r, c', w') := method c (world s) in
    (r, {| self := {| address := address (self s); __client := Some c' |};
           world := w' |}).

(** The property [is_connected] (lines 58-60). *)
Definition is_connected : M bool :=
  c <- client ;; ret (Bleak.is_connected c).

(** [find_device] (lines 43-48), when it is awaited. *)
Definition find_device : M bool :=
  device <- (fun s =>
               let '(d, w') := Bleak.find_device_by_name BLE_DEVICE_NAME (world s) in
               (Returned d, {| self := self s; world := w' |})) ;;
  match device with
  | None => ret false
  | Some device_address => set_address (Some device_address) ;; ret true
  end.

(** [disconnect] (lines 74-75). *)
Definition disconnect : M unit :=
  on_client Bleak.disconnect.

(** The [for ... else] of lines 67-72: [true] when the loop leaves through
    [break], [false] when it runs to its end and the [else] suite runs. *)
Fixpoint for_service_breaks (services : list string) : bool :=
  match services with
  | [] => false
  | uuid :: rest =>
      if String.eqb uuid (lower SERVICE_A_UUID) then true
      else for_service_breaks rest
  end.

(** [connect] (lines 62-72). *)
Definition connect : M unit :=
  a <- get_address ;;
  assert_ (match a with None => false | Some _ => true end) None ;;
  connected <- is_connected ;;
  if connected then raise AlreadyConnectedError
  else
    on_client Bleak.connect ;;
    c <- client ;;
    if for_service_breaks (Bleak.services c) then ret tt
    else disconnect ;; raise DeviceIsNotCoyote20Error.

(** [__aenter__] (lines 77-82).  Line 79 calls [self.find_device()]
    without awaiting it: [found_device] is the coroutine object, and the
    body of [find_device] does not run. *)
Definition __aenter__ : M unit :=
  a <- get_address ;;
  match a with
  | None =>
      let found_device := PyCoroutine "Coyote2.find_device" in
      if negb (truthy found_device) then raise DeviceNotFoundError
      else ret tt
  | Some _ => ret tt
  end ;;
  connect.

(** [__aexit__] (lines 84-85): returns [None]. *)
Definition __aexit__ : M pyobj :=
  disconnect ;; ret PyNone.

(** [async with coyote: body].  [__aexit__] is not called when
    [__aenter__] raises; an exception of the body is suppressed only when
    [__aexit__] returns a true value; an exception of [__aexit__] replaces
    it. *)
Definition async_with {A} (body : M A) : M (option A) :=
  fun s =>
    match __aenter__ s with
    | (Raised e, s1) => (Raised e, s1)
    | (Returned _, s1) =>
        match body s1 with
        | (Returned a, s2) =>
            match __aexit__ s2 with
            | (Raised e, s3) => (Raised e, s3)
            | (Returned _, s3) => (Returned (Some a), s3)
            end
        | (Raised e, s2) =>
            match __aexit__ s2 with
            | (Raised e', s3) => (Raised e', s3)
            | (Returned suppress, s3) =>
                if truthy suppress then (Returned None, s3)
                else (Raised e, s3)
            end
        end
    end.

(** [__check_connection] (lines 87-89). *)
Definition __check_connection : M unit :=
  connected <- is_connected ;;
  if negb connected then raise NotConnectedError else ret tt.

(** [get_battery_level] (lines 91-95). *)
Definition get_battery_level : M Z :=
  __check_connection ;;
  data <- on_client (Bleak.read_gatt_char BATTERY_LEVEL_UUID) ;;
  battery_level <- lift (battery_of_bytes data) ;;
  ret battery_level.

(** [_get_real_strength] (lines 97-104). *)
Definition _get_real_strength : M (Z * Z) :=
  __check_connection ;;
  data <- on_client (Bleak.read_gatt_char PWM_AB2_UUID) ;;
  ret (real_strength_of_bytes data).

(** [get_strength] (lines 106-108). *)
Definition get_strength : M (float * float) :=
  r <- _get_real_strength ;;
  let '(real_strength_a, real_strength_b) := r in
  strength_a <- lift (strength_of_real real_strength_a) ;;
  strength_b <- lift (strength_of_real real_strength_b) ;;
  ret (strength_a, strength_b).

(** [_write_real_strength] (lines 110-119). *)
Definition _write_real_strength (real_strength_a real_strength_b : Z) : M unit :=
  assert_ ((0 <=? real_strength_a) && (real_strength_a <=? 2047)
           && ((0 <=? real_strength_b) && (real_strength_b <=? 2047)))
          (Some "Not a vaild strength") ;;
  __check_connection ;;
  data <- lift (real_strength_bytes real_strength_a real_strength_b) ;;
  on_client (Bleak.write_gatt_char PWM_AB2_UUID data).

(** [write_strength] (lines 121-122). *)
Definition write_strength (strength_a strength_b : float) : M unit :=
  real_strength_a <- lift (real_of_strength strength_a) ;;
  real_strength_b <- lift (real_of_strength strength_b) ;;
  _write_real_strength real_strength_a real_strength_b.

(** [__read_wave] (lines 124-133). *)
Definition __read_wave (uuid : string) : M (Z * Z * Z) :=
  __check_connection ;;
  data <- on_client (Bleak.read_gatt_char uuid) ;;
  ret (wave_of_bytes data).

(** [__write_wave] (lines 135-147). *)
Definition __write_wave (uuid : string) (x y z : Z) : M unit :=
  assert_ ((0 <=? x) && (x <=? 31) && ((0 <=? y) && (y <=? 1023))
           && ((0 <=? z) && (z <=? 31)))
          (Some "Not a vaild wave") ;;
  connected <- is_connected ;;
  if negb connected then raise NotConnectedError
  else
    data <- lift (wave_bytes x y z) ;;
    on_client (Bleak.write_gatt_char uuid data).

(** Lines 149-159. *)
Definition read_wave_a : M (Z * Z * Z) := __read_wave PWM_B34_UUID.

Definition write_wave_a (x y z : Z) : M unit := __write_wave PWM_B34_UUID x y z.

Definition read_wave_b : M (Z * Z * Z) := __read_wave PWM_A34_UUID.

Definition write_wave_b (x y z : Z) : M unit := __write_wave PWM_A34_UUID x y z.

(** ** Sample states

    A Coyote 2.0 that advertises, accepts the connection and enumerates
    the expected service; and a peer of the same name without it. *)

Definition coyote_world : Bleak.world :=
  {| Bleak.advertised :=
       fun name =>
         if String.eqb name BLE_DEVICE_NAME then Some "C1:A9:D8:12:34:56"
         else None;
     Bleak.reachable := true;
     Bleak.peer_services :=
       ["00001800-0000-1000-8000-00805f9b34fb";
        "955a180a-0fe2-f5aa-a094-84b8d4f3e8ad";
        "955a180b-0fe2-f5aa-a094-84b8d4f3e8ad"];
     Bleak.characteristic :=
       fun uuid =>
         if String.eqb uuid BATTERY_LEVEL_UUID then [x64]
         else if String.eqb uuid PWM_AB2_UUID then [x04; x20; x00]
         else [x00; x00; x02];
     Bleak.calls := [] |}.

Definition other_world : Bleak.world :=
  {| Bleak.advertised := Bleak.advertised coyote_world;
     Bleak.reachable := true;
     Bleak.peer_services := ["00001800-0000-1000-8000-00805f9b34fb"];
     Bleak.characteristic := fun _ => [];
     Bleak.calls := [] |}.

Definition silent_world : Bleak.world :=
  {| Bleak.advertised := fun _ => None;
     Bleak.reachable := false;
     Bleak.peer_services := [];
     Bleak.characteristic := fun _ => [];
     Bleak.calls := [] |}.

(** A driver just constructed, in a given world. *)
Definition fresh (address : option string) (w : Bleak.world) : state :=
  {| self := __init__ address; world := w |}.

(** The state a computation leaves, and its outcome. *)
Definition after {A} (m : M A) (s : state) : state := snd (m s).

Definition outcome {A} (m : M A) (s : state) : result A := fst (m s).

(** Whether the link is up, without creating the handle: a handle not yet
    created would be created disconnected. *)
Definition connected (s : state) : bool :=
  match __client (self s) with
  | None => false
  | Some c => Bleak.is_connected c
  end.

(** The calls made on the transport so far. *)
Definition calls (s : state) : list Bleak.call := Bleak.calls (world s).

(** The handle [self.client] yields: the one kept, or a new one for the
    address known now. *)
Definition handle (s : state) : Bleak.BleakClient :=
  match __client (self s) with
  | None => Bleak.new (address (self s))
  | Some c => c
  end.

(** The primary service as the transport reports it, in lower case. *)
Definition primary_service : string := "955a180a-0fe2-f5aa-a094-84b8d4f3e8ad".

(** Whether the quotient of [get_strength] for a raw value is the float
    division of the raw value, as a float, by 7.0. *)
Definition quotient_is_float_division (real_strength : Z) : bool :=
  match strength_of_real real_strength with
  | Returned f =>
      PrimFloat.Leibniz.eqb f
        (PrimFloat.of_uint63 (Uint63.of_Z real_strength) / 7)%float
  | Raised _ => false
  end.

(** The state with one more call on the transport's record. *)
Definition logged (c : Bleak.call) (s : state) : state :=
  {| self := self s; world := Bleak.log c (world s) |}.

(** A peer whose characteristics hold payloads of other lengths than the
    formats have. *)
Definition short_world : Bleak.world :=
  {| Bleak.advertised := Bleak.advertised coyote_world;
     Bleak.reachable := true;
     Bleak.peer_services := Bleak.peer_services coyote_world;
     Bleak.characteristic :=
       fun uuid => if String.eqb uuid BATTERY_LEVEL_UUID then [] else [x04];
     Bleak.calls := [] |}.

(** A Coyote 2.0 whose intensity characteristic holds the raw pair
    (7, 3): the little-endian value [7 * 8192 + 3 * 4]. *)
Definition seven_three_world : Bleak.world :=
  {| Bleak.advertised := Bleak.advertised coyote_world;
     Bleak.reachable := true;
     Bleak.peer_services := Bleak.peer_services coyote_world;
     Bleak.characteristic := fun _ => [x0c; xe0; x00];
     Bleak.calls := [] |}.

(** A driver constructed for a known address, after its [connect]. *)
Definition session (w : Bleak.world) : state :=
  after connect (fresh (Some "C1:A9:D8:12:34:56") w).

(** Shifts and masks by constants, as quotients and remainders that [lia]
    decides. *)
Ltac shifts_to_div :=
  repeat rewrite Z.shiftl_mul_pow2 by lia;
  repeat rewrite Z.shiftr_div_pow2 by lia;
  change 2047 with (Z.ones 11); change 1023 with (Z.ones 10);
  change 31 with (Z.ones 5);
  repeat rewrite Z.land_ones by lia;
  change (2 ^ 2) with 4; change (2 ^ 5) with 32; change (2 ^ 9) with 512;
  change (2 ^ 10) with 1024; change (2 ^ 11) with 2048;
  change (2 ^ 13) with 8192; change (2 ^ 19) with 524288;
  change (Z.ones 11) with 2047; change (Z.ones 10) with 1023;
  change (Z.ones 5) with 31.

(** Unfolding of the methods down to the state, and the cases of a state:
    the handle absent, present and down, present and up. *)
Ltac unfold_methods :=
  unfold outcome, after, calls, connected, logged,
    get_battery_level, _get_real_strength, get_strength,
    _write_real_strength, write_strength, read_wave_a, read_wave_b,
    write_wave_a, write_wave_b, __read_wave, __write_wave,
    __check_connection, __aenter__, __aexit__, connect, disconnect,
    find_device, is_connected, on_client, client, get_address, set_address,
    assert_, lift, bind, ret, raise in *.

Ltac destruct_state s :=
  let a := fresh "a" in
  let cl := fresh "cl" in
  let w := fresh "w" in
  destruct s as [[a [[? [|] ?]|]] w].

(** ** Sequences of calls

    The methods as one type, and the states a driver can be in: it is
    constructed, its methods are called one after another, and between
    two calls the world may change and the link may drop. *)

Inductive method : Type :=
| Call_find_device
| Call_connect
| Call_disconnect
| Call___aenter__
| Call___aexit__
| Call_get_battery_level
| Call__get_real_strength
| Call_get_strength
| Call__write_real_strength (real_strength_a real_strength_b : Z)
| Call_write_strength (strength_a strength_b : float)
| Call_read_wave_a
| Call_write_wave_a (x y z : Z)
| Call_read_wave_b
| Call_write_wave_b (x y z : Z).

Definition call (m : method) (s : state) : state :=
  match m with
  | Call_find_device => after find_device s
  | Call_connect => after connect s
  | Call_disconnect => after disconnect s
  | Call___aenter__ => after __aenter__ s
  | Call___aexit__ => after __aexit__ s
  | Call_get_battery_level => after get_battery_level s
  | Call__get_real_strength => after _get_real_strength s
  | Call_get_strength => after get_strength s
  | Call__write_real_strength a b => after (_write_real_strength a b) s
  | Call_write_strength a b => after (write_strength a b) s
  | Call_read_wave_a => after read_wave_a s
  | Call_write_wave_a x y z => after (write_wave_a x y z) s
  | Call_read_wave_b => after read_wave_b s
  | Call_write_wave_b x y z => after (write_wave_b x y z) s
  end.

Definition link_dropped (s : state) : state :=
  {| self :=
       {| address := address (self s);
          __client :=
            match __client (self s) with
            | None => None
            | Some c =>
                Some {| Bleak.address_or_ble_device := Bleak.address_or_ble_device c;
                        Bleak.is_connected := false;
                        Bleak.services := Bleak.services c |}
            end |};
     world := world s |}.

Inductive reachable : state -> Prop :=
| reachable_init (a : option string) (w : Bleak.world) :
    reachable (fresh a w)
| reachable_call (m : method) (s : state) :
    reachable s -> reachable (call m s)
| reachable_world (s : state) (w : Bleak.world) :
    reachable s -> reachable {| self := self s; world := w |}
| reachable_drop (s : state) :
    reachable s -> reachable (link_dropped s).

(** The invariant of the states a driver reaches: the link is up only
    when the address is known. *)
Definition live_link_has_address (s : state) : Prop :=
  connected s = true -> address (self s) <> None.

Create HintDb quiet.

(** A computation that leaves the address as it is and does not bring the
    link up. *)
Definition quiet {A} (m : M A) : Prop :=
  forall s,
    address (self (after m s)) = address (self s)
    /\ (connected (after m s) = true -> connected s = true).

(** ** The handle across a computation

    A relation between the handle before and after, kept by a computation;
    and the two relations used below: the handle, once created, stays, for
    the address it was created for; and a handle that is up afterwards is
    the handle as it was before. *)

Definition handle_relation : Type :=
  option Bleak.BleakClient -> option Bleak.BleakClient -> Prop.

Definition respects (R : handle_relation) {A} (m : M A) : Prop :=
  forall s, R (__client (self s)) (__client (self (after m s))).

Definition same_target : handle_relation :=
  fun before after_ =>
    forall c,
      before = Some c ->
      exists c',
        after_ = Some c'
        /\ Bleak.address_or_ble_device c' = Bleak.address_or_ble_device c.

Definition untouched_when_up : handle_relation :=
  fun before after_ =>
    forall c',
      after_ = Some c' -> Bleak.is_connected c' = true -> before = Some c'.

(** The invariant that a live link has passed the check of [connect]: the
    services its handle discovered hold the primary one. *)
Definition live_link_is_checked (s : state) : Prop :=
  connected s = true -> In primary_service (Bleak.services (handle s)).

(** Whether writing back the float read for a raw value gives the raw value
    again, or one less; and whether that float is at most 1.0 exactly for
    the raw values up to 7. *)
Definition read_back (real_strength : Z) : result Z :=
  match strength_of_real real_strength with
  | Raised e => Raised e
  | Returned strength => real_of_strength strength
  end.

Definition read_back_within_one (real_strength : Z) : bool :=
  match read_back real_strength with
  | Returned r =>
      ((r =? real_strength) || (r =? real_strength - 1))
      && ((60 <? real_strength) || (r =? real_strength))
  | Raised _ => false
  end.

Definition unit_interval_is_low (real_strength : Z) : bool :=
  match strength_of_real real_strength with
  | Returned strength =>
      PrimFloat.leb 0 strength
      && Bool.eqb (PrimFloat.leb strength 1) (real_strength <=? 7)
  | Raised _ => false
  end.

(** * Properties *)

(** ** Bytes and integers *)

Example real_strength_bytes_1_1 :
  real_strength_bytes 1 1 = Returned [x04; x20; x00].
Proof. reflexivity. Qed.

Example wave_bytes_1_0_0 : wave_bytes 1 0 0 = Returned [x00; x00; x02].
Proof. reflexivity. Qed.

Example wave_of_bytes_1_0_0 : wave_of_bytes [x00; x00; x02] = (0, 256, 0).
Proof. reflexivity. Qed.

Example real_of_strength_half : real_of_strength 0.5%float = Returned 3.
Proof. reflexivity. Qed.

Example strength_of_real_7 : strength_of_real 7 = Returned 1%float.
Proof. reflexivity. Qed.

Section Bytes.

Import PyInt.

Lemma byte_value_range (b : byte) : 0 <= byte_value b < 256.
Proof.
  unfold byte_value. pose proof (Byte.to_N_bounded b) as Hb. lia.
Qed.

Lemma byte_value_of_Z (z : Z) : 0 <= z < 256 -> byte_value (byte_of_Z z) = z.
Proof.
  intros Hz. unfold byte_value, byte_of_Z.
  destruct (Byte.of_N (Z.to_N z)) as [b|] eqn:E.
  - apply Byte.to_of_N in E. rewrite E. lia.
  - apply Byte.of_N_None_iff in E. lia.
Qed.

Lemma from_bytes_range (data : list byte) :
  0 <= from_bytes data < 256 ^ Z.of_nat (List.length data).
Proof.
  induction data as [|b rest IH].
  - simpl. lia.
  - cbn [from_bytes List.length]. rewrite Nat2Z.inj_succ, Z.pow_succ_r by lia.
    pose proof (byte_value_range b). lia.
Qed.

Lemma to_bytes_digits_length (n : nat) (v : Z) :
  List.length (to_bytes_digits n v) = n.
Proof.
  revert v. induction n as [|n IH]; intros v; simpl; [reflexivity|].
  now rewrite IH.
Qed.

Lemma from_bytes_to_bytes_digits (n : nat) :
  forall v, 0 <= v < 256 ^ Z.of_nat n -> from_bytes (to_bytes_digits n v) = v.
Proof.
  induction n as [|n IH]; intros v Hv.
  - simpl in *. lia.
  - rewrite Nat2Z.inj_succ, Z.pow_succ_r in Hv by lia.
    cbn [to_bytes_digits from_bytes].
    rewrite byte_value_of_Z by (apply Z.mod_pos_bound; lia).
    rewrite IH by (split; [apply Z.div_pos; lia | apply Z.div_lt_upper_bound; lia]).
    pose proof (Z.div_mod v 256). lia.
Qed.

Lemma to_bytes_3 (v : Z) :
  0 <= v < 16777216 ->
  exists data, to_bytes v 3 = Returned data /\ List.length data = 3%nat
               /\ from_bytes data = v.
Proof.
  intros Hv. exists (to_bytes_digits 3 v). unfold to_bytes.
  destruct (Z.ltb_spec v 0); [lia|].
  change (256 ^ Z.of_nat 3) with 16777216.
  destruct (Z.leb_spec 16777216 v); [lia|].
  split; [reflexivity|]. split; [apply to_bytes_digits_length|].
  apply from_bytes_to_bytes_digits. change (256 ^ Z.of_nat 3) with 16777216. lia.
Qed.

End Bytes.

(** ** The wire formats *)

Lemma real_strength_round_trip (a b : Z) :
  0 <= a <= 2047 -> 0 <= b <= 2047 ->
  exists data, real_strength_bytes a b = Returned data
               /\ List.length data = 3%nat
               /\ real_strength_of_bytes data = (a, b).
Proof.
  intros Ha Hb. unfold real_strength_bytes. cbv zeta.
  destruct (to_bytes_3 (Z.shiftl (Z.shiftl (0 + a) 11 + b) 2)) as (data & E & L & F).
  { shifts_to_div. lia. }
  exists data. split; [exact E|]. split; [exact L|].
  unfold real_strength_of_bytes. cbv zeta. rewrite F.
  shifts_to_div. f_equal; Z.div_mod_to_equations; lia.
Qed.

Lemma wave_there_and_back (x y z : Z) :
  0 <= x <= 31 -> 0 <= y <= 1023 -> 0 <= z <= 31 ->
  exists data, wave_bytes x y z = Returned data
               /\ List.length data = 3%nat
               /\ wave_of_bytes data = (x / 4, (x mod 4) * 256 + y / 4, z).
Proof.
  intros Hx Hy Hz. unfold wave_bytes. cbv zeta.
  destruct (to_bytes_3 (Z.shiftl (Z.shiftl (Z.shiftl (0 + x) 10 + y) 5 + z) 2))
    as (data & E & L & F).
  { shifts_to_div. lia. }
  exists data. split; [exact E|]. split; [exact L|].
  unfold wave_of_bytes. cbv zeta. rewrite F.
  shifts_to_div. f_equal; [f_equal|]; Z.div_mod_to_equations; lia.
Qed.

Lemma real_strength_of_bytes_range (data : list byte) :
  List.length data = 3%nat ->
  let '(a, b) := real_strength_of_bytes data in
  0 <= a <= 2047 /\ 0 <= b <= 2047.
Proof.
  intros L. unfold real_strength_of_bytes. cbv zeta.
  pose proof (from_bytes_range data) as R. rewrite L in R.
  change (256 ^ Z.of_nat 3) with 16777216 in R.
  shifts_to_div. Z.div_mod_to_equations. lia.
Qed.

Lemma wave_of_bytes_range (data : list byte) :
  List.length data = 3%nat ->
  let '(x, y, z) := wave_of_bytes data in
  0 <= x <= 31 /\ 0 <= y <= 1023 /\ 0 <= z <= 31.
Proof.
  intros L. unfold wave_of_bytes. cbv zeta.
  pose proof (from_bytes_range data) as R. rewrite L in R.
  change (256 ^ Z.of_nat 3) with 16777216 in R.
  shifts_to_div. Z.div_mod_to_equations. lia.
Qed.

(** ** The methods, step by step *)

Lemma client_connected (s : state) :
  connected s = true -> after client s = s.
Proof.
  destruct_state s; unfold_methods; cbn; intros H; congruence.
Qed.

Lemma calls_after_client (s : state) : calls (after client s) = calls s.
Proof.
  destruct_state s; reflexivity.
Qed.

Lemma connected_after_client (s : state) :
  connected (after client s) = connected s.
Proof.
  destruct_state s; reflexivity.
Qed.

Lemma is_connected_observes (s : state) :
  is_connected s = (Returned (connected s), after client s).
Proof.
  destruct_state s; reflexivity.
Qed.

Lemma check_connection_up (s : state) :
  connected s = true -> __check_connection s = (Returned tt, s).
Proof.
  destruct_state s; unfold_methods; cbn; intros H; congruence.
Qed.

Lemma check_connection_down (s : state) :
  connected s = false ->
  __check_connection s = (Raised NotConnectedError, after client s).
Proof.
  destruct_state s; unfold_methods; cbn; intros H; congruence.
Qed.

Lemma read_gatt_char_up (uuid : string) (s : state) :
  connected s = true ->
  on_client (Bleak.read_gatt_char uuid) s
  = (Returned (Bleak.characteristic (world s) uuid),
     logged (Bleak.ReadGattChar uuid) s).
Proof.
  destruct_state s; unfold_methods; cbn; intros H; congruence.
Qed.

Lemma write_gatt_char_up (uuid : string) (data : list byte) (s : state) :
  connected s = true ->
  on_client (Bleak.write_gatt_char uuid data) s
  = (Returned tt, logged (Bleak.WriteGattChar uuid data) s).
Proof.
  destruct_state s; unfold_methods; cbn; intros H; congruence.
Qed.

Lemma disconnect_runs (s : state) :
  outcome disconnect s = Returned tt
  /\ connected (after disconnect s) = false
  /\ calls (after disconnect s) = calls s ++ [Bleak.Disconnect].
Proof.
  destruct_state s; repeat split.
Qed.

Lemma bind_returned {A B} (m : M A) (k : A -> M B) (s s' : state) (a : A) :
  m s = (Returned a, s') -> bind m k s = k a s'.
Proof.
  intros E. unfold bind. now rewrite E.
Qed.

Lemma bind_raised {A B} (m : M A) (k : A -> M B) (s s' : state) (e : exn) :
  m s = (Raised e, s') -> bind m k s = (Raised e, s').
Proof.
  intros E. unfold bind. now rewrite E.
Qed.

Lemma read_wave_up (uuid : string) (s : state) :
  connected s = true ->
  __read_wave uuid s
  = (Returned (wave_of_bytes (Bleak.characteristic (world s) uuid)),
     logged (Bleak.ReadGattChar uuid) s).
Proof.
  intros H. unfold __read_wave.
  rewrite (bind_returned _ _ _ _ _ (check_connection_up s H)).
  rewrite (bind_returned _ _ _ _ _ (read_gatt_char_up uuid s H)).
  reflexivity.
Qed.

Lemma get_real_strength_up (s : state) :
  connected s = true ->
  _get_real_strength s
  = (Returned (real_strength_of_bytes (Bleak.characteristic (world s) PWM_AB2_UUID)),
     logged (Bleak.ReadGattChar PWM_AB2_UUID) s).
Proof.
  intros H. unfold _get_real_strength.
  rewrite (bind_returned _ _ _ _ _ (check_connection_up s H)).
  rewrite (bind_returned _ _ _ _ _ (read_gatt_char_up _ s H)).
  reflexivity.
Qed.

Lemma get_battery_level_up (s : state) :
  connected s = true ->
  get_battery_level s
  = (battery_of_bytes (Bleak.characteristic (world s) BATTERY_LEVEL_UUID),
     logged (Bleak.ReadGattChar BATTERY_LEVEL_UUID) s).
Proof.
  intros H. unfold get_battery_level.
  rewrite (bind_returned _ _ _ _ _ (check_connection_up s H)).
  rewrite (bind_returned _ _ _ _ _ (read_gatt_char_up _ s H)).
  unfold bind, lift, ret.
  now destruct (battery_of_bytes _).
Qed.

Example session_is_connected : connected (session coyote_world) = true.
Proof. reflexivity. Qed.

Example session_calls : calls (session coyote_world) = [Bleak.Connect].
Proof. reflexivity. Qed.

(** ** Encoding and decoding *)

(** C1.  What decoding the payload of an encoder returns, for fields in
    range.  The intensity pair comes back as it was written.  The wave
    triple does not: [__write_wave] places [x] from bit 17 and [y] from
    bit 7, [__read_wave] reads [x] from bit 19 and [y] from bit 9, so the
    two low bits of [x] come back as the two high bits of [y] and the two
    low bits of [y] are lost; [(x, y, z)] comes back only when [x] and [y]
    are both 0. *)
Theorem write_then_read_fields (a b x y z : Z) :
  0 <= a <= 2047 -> 0 <= b <= 2047 ->
  0 <= x <= 31 -> 0 <= y <= 1023 -> 0 <= z <= 31 ->
  (exists data,
      real_strength_bytes a b = Returned data
      /\ List.length data = 3%nat
      /\ real_strength_of_bytes data = (a, b))
  /\ (exists data,
         wave_bytes x y z = Returned data
         /\ List.length data = 3%nat
         /\ wave_of_bytes data = (x / 4, (x mod 4) * 256 + y / 4, z)
         /\ (wave_of_bytes data = (x, y, z) <-> x = 0 /\ y = 0)).
Proof.
  intros Ha Hb Hx Hy Hz. split.
  - apply real_strength_round_trip; assumption.
  - destruct (wave_there_and_back x y z Hx Hy Hz) as (data & E & L & D).
    exists data. repeat split; try assumption; rewrite D in *.
    + inversion H. Z.div_mod_to_equations. lia.
    + inversion H. Z.div_mod_to_equations. lia.
    + intros [-> ->]. reflexivity.
Qed.

Lemma write_then_read_fields_at_1_0_0 :
  (0 <= 1 <= 2047 /\ 0 <= 1 <= 2047
   /\ 0 <= 1 <= 31 /\ 0 <= 0 <= 1023 /\ 0 <= 0 <= 31)
  /\ (exists data,
         wave_bytes 1 0 0 = Returned data
         /\ wave_of_bytes data = (0, 256, 0)
         /\ wave_of_bytes data <> (1, 0, 0)).
Proof.
  split; [lia|].
  destruct (write_then_read_fields 1 1 1 0 0) as (_ & data & E & _ & D & _);
    try lia.
  exists data. split; [exact E|]. rewrite D. split; [reflexivity|discriminate].
Defined.

(** C10.  Every payload of exactly three bytes decodes to fields within
    their widths, and on a live connection the reads return these fields
    whatever three bytes the characteristic holds. *)
Theorem three_bytes_decode_in_range (data : list byte) :
  List.length data = 3%nat ->
  (exists a b,
      real_strength_of_bytes data = (a, b)
      /\ 0 <= a <= 2047 /\ 0 <= b <= 2047)
  /\ (exists x y z,
         wave_of_bytes data = (x, y, z)
         /\ 0 <= x <= 31 /\ 0 <= y <= 1023 /\ 0 <= z <= 31)
  /\ (forall s,
         connected s = true ->
         Bleak.characteristic (world s) PWM_AB2_UUID = data ->
         outcome _get_real_strength s = Returned (real_strength_of_bytes data))
  /\ (forall s uuid,
         connected s = true ->
         Bleak.characteristic (world s) uuid = data ->
         outcome (__read_wave uuid) s = Returned (wave_of_bytes data)).
Proof.
  intros L. repeat split.
  - pose proof (real_strength_of_bytes_range data L) as R.
    destruct (real_strength_of_bytes data) as [a b]. exists a, b. tauto.
  - pose proof (wave_of_bytes_range data L) as R.
    destruct (wave_of_bytes data) as [[x y] z]. exists x, y, z. tauto.
  - intros s H <-. unfold outcome. now rewrite get_real_strength_up.
  - intros s uuid H <-. unfold outcome. now rewrite read_wave_up.
Qed.

Lemma three_bytes_decode_in_range_at_ff :
  List.length [xff; xff; xff] = 3%nat
  /\ (exists a b,
         real_strength_of_bytes [xff; xff; xff] = (a, b)
         /\ 0 <= a <= 2047 /\ 0 <= b <= 2047)
  /\ (exists x y z,
         wave_of_bytes [xff; xff; xff] = (x, y, z)
         /\ 0 <= x <= 31 /\ 0 <= y <= 1023 /\ 0 <= z <= 31).
Proof.
  split; [reflexivity|].
  destruct (three_bytes_decode_in_range [xff; xff; xff] eq_refl)
    as (P & W & _).
  split; [exact P | exact W].
Defined.

(** C3, the code at a payload of one byte: [_get_real_strength] does not
    fail on it. *)
Lemma one_byte_pair_is_decoded :
  connected (session short_world) = true
  /\ Bleak.characteristic (world (session short_world)) PWM_AB2_UUID = [x04]
  /\ List.length [x04] <> 3%nat
  /\ outcome _get_real_strength (session short_world) = Returned (0, 1)
  /\ ~ (exists e, outcome _get_real_strength (session short_world) = Raised e).
Proof.
  repeat split; try reflexivity; try discriminate.
  intros [e H]. discriminate H.
Qed.

(** C3, amended.  On a live connection the battery read of an empty
    payload fails with [IndexError], the failure of [data[0]], and of any
    other payload returns the first byte; the intensity read checks no
    length: it returns the fields of the little-endian value of the
    payload, of whatever length, and never fails. *)
Theorem payload_lengths_unchecked (s : state) :
  connected s = true ->
  (Bleak.characteristic (world s) BATTERY_LEVEL_UUID = [] ->
   outcome get_battery_level s = Raised IndexError)
  /\ (forall b rest,
         Bleak.characteristic (world s) BATTERY_LEVEL_UUID = b :: rest ->
         outcome get_battery_level s = Returned (PyInt.byte_value b))
  /\ outcome _get_real_strength s
     = Returned (real_strength_of_bytes
                   (Bleak.characteristic (world s) PWM_AB2_UUID)).
Proof.
  intros H. unfold outcome.
  rewrite get_battery_level_up, get_real_strength_up by assumption.
  cbn [fst]. repeat split.
  - intros ->. reflexivity.
  - intros b rest ->. reflexivity.
Qed.

Lemma payload_lengths_unchecked_short :
  connected (session short_world) = true
  /\ outcome get_battery_level (session short_world) = Raised IndexError
  /\ outcome _get_real_strength (session short_world) = Returned (0, 1).
Proof.
  split; [reflexivity|].
  destruct (payload_lengths_unchecked (session short_world) eq_refl)
    as (B & _ & P).
  split; [apply B; reflexivity | exact P].
Defined.

Lemma out_of_range_cases (s : state) :
  (forall a b,
      ~ (0 <= a <= 2047 /\ 0 <= b <= 2047) ->
      _write_real_strength a b s
      = (Raised (AssertionError (Some "Not a vaild strength")), s))
  /\ (forall uuid x y z,
         ~ (0 <= x <= 31 /\ 0 <= y <= 1023 /\ 0 <= z <= 31) ->
         __write_wave uuid x y z s
         = (Raised (AssertionError (Some "Not a vaild wave")), s))
  /\ (forall x y z,
         ~ (0 <= x <= 31 /\ 0 <= y <= 1023 /\ 0 <= z <= 31) ->
         write_wave_a x y z s
         = (Raised (AssertionError (Some "Not a vaild wave")), s)
         /\ write_wave_b x y z s
            = (Raised (AssertionError (Some "Not a vaild wave")), s)).
Proof.
  assert (W : forall uuid x y z,
             ~ (0 <= x <= 31 /\ 0 <= y <= 1023 /\ 0 <= z <= 31) ->
             __write_wave uuid x y z s
             = (Raised (AssertionError (Some "Not a vaild wave")), s)).
  { intros uuid x y z R. unfold __write_wave.
    apply bind_raised. unfold assert_.
    destruct ((0 <=? x) && (x <=? 31) && ((0 <=? y) && (y <=? 1023))
              && ((0 <=? z) && (z <=? 31))) eqn:E; [|reflexivity].
    exfalso. apply R. lia. }
  split; [|split].
  - intros a b R. unfold _write_real_strength.
    apply bind_raised. unfold assert_.
    destruct ((0 <=? a) && (a <=? 2047) && ((0 <=? b) && (b <=? 2047))) eqn:E;
      [|reflexivity].
    exfalso. apply R. lia.
  - exact W.
  - intros x y z R. split; apply W; exact R.
Qed.

(** C4.  Fields out of range are rejected by the assertion that opens each
    write, whatever the state of the link, and nothing is done: the state
    is as before.  The failed [assert] with its message is the source's
    form of the invalid-parameter error. *)
Theorem out_of_range_is_rejected (s : state) :
  (forall a b,
      ~ (0 <= a <= 2047 /\ 0 <= b <= 2047) ->
      _write_real_strength a b s
      = (Raised (AssertionError (Some "Not a vaild strength")), s))
  /\ (forall x y z,
         ~ (0 <= x <= 31 /\ 0 <= y <= 1023 /\ 0 <= z <= 31) ->
         write_wave_a x y z s
         = (Raised (AssertionError (Some "Not a vaild wave")), s)
         /\ write_wave_b x y z s
            = (Raised (AssertionError (Some "Not a vaild wave")), s)).
Proof.
  destruct (out_of_range_cases s) as (S & _ & W). split; assumption.
Qed.

Lemma out_of_range_is_rejected_examples :
  (~ (0 <= 2048 <= 2047 /\ 0 <= 0 <= 2047)
   /\ ~ (0 <= 0 <= 2047 /\ 0 <= -1 <= 2047)
   /\ ~ (0 <= 32 <= 31 /\ 0 <= 0 <= 1023 /\ 0 <= 0 <= 31)
   /\ ~ (0 <= 0 <= 31 /\ 0 <= 1024 <= 1023 /\ 0 <= 0 <= 31)
   /\ ~ (0 <= 0 <= 31 /\ 0 <= 0 <= 1023 /\ 0 <= 32 <= 31))
  /\ outcome (_write_real_strength 2048 0) (session coyote_world)
     = Raised (AssertionError (Some "Not a vaild strength"))
  /\ outcome (_write_real_strength 0 (-1)) (session coyote_world)
     = Raised (AssertionError (Some "Not a vaild strength"))
  /\ outcome (write_wave_a 32 0 0) (session coyote_world)
     = Raised (AssertionError (Some "Not a vaild wave"))
  /\ outcome (write_wave_b 0 1024 0) (session coyote_world)
     = Raised (AssertionError (Some "Not a vaild wave"))
  /\ outcome (write_wave_a 0 0 32) (session coyote_world)
     = Raised (AssertionError (Some "Not a vaild wave")).
Proof.
  split; [lia|].
  destruct (out_of_range_is_rejected (session coyote_world)) as (S & W).
  unfold outcome.
  rewrite (S 2048 0), (S 0 (-1)) by lia.
  rewrite (proj1 (W 32 0 0 ltac:(lia))), (proj2 (W 0 1024 0 ltac:(lia))),
    (proj1 (W 0 0 32 ltac:(lia))).
  repeat split.
Defined.

(** ** The connection check *)

Lemma write_real_strength_up (a b : Z) (s : state) :
  0 <= a <= 2047 -> 0 <= b <= 2047 -> connected s = true ->
  exists data,
    real_strength_bytes a b = Returned data
    /\ _write_real_strength a b s
       = (Returned tt, logged (Bleak.WriteGattChar PWM_AB2_UUID data) s).
Proof.
  intros Ha Hb H.
  destruct (real_strength_round_trip a b Ha Hb) as (data & E & _).
  exists data. split; [exact E|]. unfold _write_real_strength, assert_.
  replace ((0 <=? a) && (a <=? 2047) && ((0 <=? b) && (b <=? 2047)))
    with true by lia.
  unfold bind at 1. unfold ret at 1.
  rewrite (bind_returned _ _ _ _ _ (check_connection_up s H)).
  unfold bind, lift. rewrite E. now apply write_gatt_char_up.
Qed.

Lemma write_wave_up (uuid : string) (x y z : Z) (s : state) :
  0 <= x <= 31 -> 0 <= y <= 1023 -> 0 <= z <= 31 -> connected s = true ->
  exists data,
    wave_bytes x y z = Returned data
    /\ __write_wave uuid x y z s
       = (Returned tt, logged (Bleak.WriteGattChar uuid data) s).
Proof.
  intros Hx Hy Hz H.
  destruct (wave_there_and_back x y z Hx Hy Hz) as (data & E & _).
  exists data. split; [exact E|]. unfold __write_wave, assert_.
  replace ((0 <=? x) && (x <=? 31) && ((0 <=? y) && (y <=? 1023))
           && ((0 <=? z) && (z <=? 31))) with true by lia.
  unfold bind at 1. unfold ret at 1.
  rewrite (bind_returned _ _ _ _ _ (is_connected_observes s)).
  rewrite H, (client_connected s H). cbn [negb].
  unfold bind, lift. rewrite E. now apply write_gatt_char_up.
Qed.

Lemma write_real_strength_down (a b : Z) (s : state) :
  0 <= a <= 2047 -> 0 <= b <= 2047 -> connected s = false ->
  _write_real_strength a b s = (Raised NotConnectedError, after client s).
Proof.
  intros Ha Hb H. unfold _write_real_strength, assert_.
  replace ((0 <=? a) && (a <=? 2047) && ((0 <=? b) && (b <=? 2047)))
    with true by lia.
  unfold bind at 1. unfold ret at 1.
  now rewrite (bind_raised _ _ _ _ _ (check_connection_down s H)).
Qed.

Lemma write_wave_down (uuid : string) (x y z : Z) (s : state) :
  0 <= x <= 31 -> 0 <= y <= 1023 -> 0 <= z <= 31 -> connected s = false ->
  __write_wave uuid x y z s = (Raised NotConnectedError, after client s).
Proof.
  intros Hx Hy Hz H. unfold __write_wave, assert_.
  replace ((0 <=? x) && (x <=? 31) && ((0 <=? y) && (y <=? 1023))
           && ((0 <=? z) && (z <=? 31))) with true by lia.
  unfold bind at 1. unfold ret at 1.
  rewrite (bind_returned _ _ _ _ _ (is_connected_observes s)).
  rewrite H. reflexivity.
Qed.

(** C5, the code on a link that is down and a field out of range: the
    assertion comes first, and the error is not [NotConnectedError]. *)
Lemma assertion_precedes_connection_check :
  connected (fresh (Some "C1:A9:D8:12:34:56") coyote_world) = false
  /\ outcome (write_wave_a 32 0 0) (fresh (Some "C1:A9:D8:12:34:56") coyote_world)
     = Raised (AssertionError (Some "Not a vaild wave"))
  /\ outcome (write_wave_a 32 0 0) (fresh (Some "C1:A9:D8:12:34:56") coyote_world)
     <> Raised NotConnectedError.
Proof.
  repeat split. discriminate.
Qed.

(** C5, amended.  When the link is down at the call, every read, and every
    write whose fields are in range, raises [NotConnectedError]; a write
    with a field out of range raises the assertion's error instead, and
    the write of float intensities raises one of the two or the error of
    its conversion.  In each case the transport is asked for nothing: the
    record of its calls is as before, and the only change is that the
    handle now exists. *)
Theorem link_down_nothing_sent (s : state) :
  connected s = false ->
  calls (after client s) = calls s
  /\ get_battery_level s = (Raised NotConnectedError, after client s)
  /\ _get_real_strength s = (Raised NotConnectedError, after client s)
  /\ get_strength s = (Raised NotConnectedError, after client s)
  /\ read_wave_a s = (Raised NotConnectedError, after client s)
  /\ read_wave_b s = (Raised NotConnectedError, after client s)
  /\ (forall a b,
         0 <= a <= 2047 -> 0 <= b <= 2047 ->
         _write_real_strength a b s = (Raised NotConnectedError, after client s))
  /\ (forall x y z,
         0 <= x <= 31 -> 0 <= y <= 1023 -> 0 <= z <= 31 ->
         write_wave_a x y z s = (Raised NotConnectedError, after client s)
         /\ write_wave_b x y z s = (Raised NotConnectedError, after client s))
  /\ (forall a b,
         ~ (0 <= a <= 2047 /\ 0 <= b <= 2047) ->
         exists msg, _write_real_strength a b s = (Raised (AssertionError msg), s))
  /\ (forall x y z,
         ~ (0 <= x <= 31 /\ 0 <= y <= 1023 /\ 0 <= z <= 31) ->
         exists msg,
           write_wave_a x y z s = (Raised (AssertionError msg), s)
           /\ write_wave_b x y z s = (Raised (AssertionError msg), s))
  /\ (forall strength_a strength_b,
         (exists e, outcome (write_strength strength_a strength_b) s = Raised e)
         /\ calls (after (write_strength strength_a strength_b) s) = calls s).
Proof.
  intros H.
  pose proof (check_connection_down s H) as C.
  destruct (out_of_range_cases s) as (S & _ & W).
  assert (F : forall strength_a strength_b,
             (exists e, outcome (write_strength strength_a strength_b) s = Raised e)
             /\ calls (after (write_strength strength_a strength_b) s) = calls s).
  { intros va vb. unfold outcome, after, write_strength, bind, lift.
    destruct (real_of_strength va) as [e|a]; [split; [now exists e | reflexivity]|].
    destruct (real_of_strength vb) as [e|b]; [split; [now exists e | reflexivity]|].
    cbn beta iota.
    destruct ((0 <=? a) && (a <=? 2047) && ((0 <=? b) && (b <=? 2047))) eqn:R.
    - rewrite write_real_strength_down by (assumption || lia).
      split; [now eexists | apply calls_after_client].
    - rewrite (S a b) by lia. split; [now eexists | reflexivity]. }
  repeat match goal with |- _ /\ _ => split end; try exact F.
  - apply calls_after_client.
  - unfold get_battery_level. now apply bind_raised.
  - unfold _get_real_strength. now apply bind_raised.
  - unfold get_strength, _get_real_strength.
    apply bind_raised. now apply bind_raised.
  - unfold read_wave_a, __read_wave. now apply bind_raised.
  - unfold read_wave_b, __read_wave. now apply bind_raised.
  - intros a b Ha Hb. now apply write_real_strength_down.
  - intros x y z Hx Hy Hz. split; apply write_wave_down; assumption.
  - intros a b R. eexists. apply S, R.
  - intros x y z R. eexists. apply W, R.
Qed.

Lemma link_down_nothing_sent_fresh :
  connected (fresh (Some "C1:A9:D8:12:34:56") coyote_world) = false
  /\ outcome get_battery_level (fresh (Some "C1:A9:D8:12:34:56") coyote_world)
     = Raised NotConnectedError
  /\ calls (after get_battery_level (fresh (Some "C1:A9:D8:12:34:56") coyote_world))
     = [].
Proof.
  split; [reflexivity|].
  destruct (link_down_nothing_sent (fresh (Some "C1:A9:D8:12:34:56") coyote_world) eq_refl)
    as (K & B & _).
  unfold outcome, after in *. rewrite B. split; [reflexivity | exact K].
Defined.

(** ** Quiet computations and the states a driver reaches *)

Section Quiet.

Context {A B : Type}.

Lemma quiet_ret (a : A) : quiet (ret a).
Proof. intros s. split; auto. Qed.

Lemma quiet_raise (e : exn) : quiet (@raise A e).
Proof. intros s. split; auto. Qed.

Lemma quiet_lift (r : result A) : quiet (lift r).
Proof. intros s. split; auto. Qed.

Lemma quiet_bind (m : M A) (k : A -> M B) :
  quiet m -> (forall a, quiet (k a)) -> quiet (bind m k).
Proof.
  intros Qm Qk s. specialize (Qm s). unfold after, bind in *.
  destruct (m s) as [[e|a] s1]; cbn [snd] in *; [exact Qm|].
  specialize (Qk a s1). unfold after in Qk.
  destruct Qm as [A1 C1], Qk as [A2 C2]. split; [congruence | auto].
Qed.

Lemma quiet_on_client
  (method : Bleak.BleakClient -> Bleak.world
            -> result A * Bleak.BleakClient * Bleak.world) :
  (forall c w,
      Bleak.is_connected (snd (fst (method c w))) = true ->
      Bleak.is_connected c = true) ->
  quiet (on_client method).
Proof.
  intros Hm s. destruct s as [[a [c|]] w]; unfold_methods; cbn.
  - specialize (Hm c w). destruct (method c w) as [[r c'] w']. cbn in *. auto.
  - specialize (Hm (Bleak.new a) w).
    destruct (method (Bleak.new a) w) as [[r c'] w']. cbn in *.
    split; [reflexivity|]. intros H. specialize (Hm H). discriminate Hm.
Qed.

End Quiet.

Lemma quiet_assert (cond : bool) (msg : option string) : quiet (assert_ cond msg).
Proof. intros s. destruct cond; split; auto. Qed.

Lemma quiet_get_address : quiet get_address.
Proof. intros s. split; auto. Qed.

Lemma quiet_client : quiet client.
Proof. intros s. destruct_state s; split; auto. Qed.

Lemma quiet_is_connected : quiet is_connected.
Proof. intros s. destruct_state s; split; auto. Qed.

Lemma quiet_read_gatt_char (uuid : string) :
  quiet (on_client (Bleak.read_gatt_char uuid)).
Proof.
  apply quiet_on_client. intros c w. unfold Bleak.read_gatt_char.
  destruct (Bleak.is_connected c) eqn:E; cbn; congruence.
Qed.

Lemma quiet_write_gatt_char (uuid : string) (data : list byte) :
  quiet (on_client (Bleak.write_gatt_char uuid data)).
Proof.
  apply quiet_on_client. intros c w. unfold Bleak.write_gatt_char.
  destruct (Bleak.is_connected c) eqn:E; cbn; congruence.
Qed.

Lemma quiet_disconnect : quiet disconnect.
Proof.
  apply quiet_on_client. intros c w. cbn. discriminate.
Qed.

#[local] Hint Resolve quiet_ret quiet_raise quiet_lift quiet_assert
  quiet_get_address quiet_client quiet_is_connected quiet_read_gatt_char
  quiet_write_gatt_char quiet_disconnect : quiet.

(** The methods built from quiet steps by sequencing and branching. *)
Ltac quiet_steps :=
  repeat first
    [ solve [auto with quiet]
    | match goal with
      | |- quiet (bind _ _) => apply quiet_bind; [|intro]
      | |- quiet (if ?b then _ else _) => destruct b
      | |- quiet (match ?x with _ => _ end) => destruct x
      end ].

Lemma quiet_check_connection : quiet __check_connection.
Proof. unfold __check_connection. quiet_steps. Qed.

Lemma quiet_methods :
  quiet __aexit__ /\ quiet get_battery_level /\ quiet _get_real_strength
  /\ quiet get_strength /\ quiet read_wave_a /\ quiet read_wave_b
  /\ (forall a b, quiet (_write_real_strength a b))
  /\ (forall a b, quiet (write_strength a b))
  /\ (forall x y z, quiet (write_wave_a x y z))
  /\ (forall x y z, quiet (write_wave_b x y z)).
Proof.
  pose proof quiet_check_connection.
  repeat match goal with |- _ /\ _ => split end; intros;
    unfold __aexit__, get_battery_level, get_strength, _get_real_strength,
      read_wave_a, read_wave_b, write_strength, _write_real_strength,
      write_wave_a, write_wave_b, __read_wave, __write_wave;
    quiet_steps.
Qed.

Lemma connect_keeps_address (s : state) :
  address (self (after connect s)) = address (self s).
Proof.
  destruct s as [[[a|] [[[ca|] [|] cs]|]] w];
    unfold_methods; unfold Bleak.connect; cbn; try reflexivity;
    destruct (Bleak.reachable w); cbn; try reflexivity;
    destruct (for_service_breaks (Bleak.peer_services w)); reflexivity.
Qed.

Lemma connect_without_address (s : state) :
  address (self s) = None -> connect s = (Raised (AssertionError None), s).
Proof.
  destruct s as [[a cl] w]. cbn. intros ->. reflexivity.
Qed.

Lemma aenter_without_address (s : state) :
  address (self s) = None -> __aenter__ s = (Raised (AssertionError None), s).
Proof.
  destruct s as [[a cl] w]. cbn. intros ->. reflexivity.
Qed.

Lemma aenter_with_address (s : state) :
  address (self s) <> None -> __aenter__ s = connect s.
Proof.
  destruct s as [[[a|] cl] w]; cbn; intros H; [reflexivity|].
  exfalso. apply H. reflexivity.
Qed.

Lemma find_device_address (s : state) :
  address (self (after find_device s)) <> None
  \/ (address (self (after find_device s)) = address (self s)
      /\ connected (after find_device s) = connected s).
Proof.
  destruct s as [[a cl] w]. unfold_methods. unfold Bleak.find_device_by_name.
  cbn. destruct (Bleak.advertised w BLE_DEVICE_NAME); cbn.
  - left. discriminate.
  - right. split; reflexivity.
Qed.

Lemma quiet_keeps_invariant {A} (m : M A) (s : state) :
  quiet m -> live_link_has_address s -> live_link_has_address (after m s).
Proof.
  intros Q I H. destruct (Q s) as [E C]. rewrite E. apply I, C, H.
Qed.

Lemma connect_keeps_invariant (s : state) :
  live_link_has_address s -> live_link_has_address (after connect s).
Proof.
  intros I H. rewrite connect_keeps_address.
  destruct (address (self s)) eqn:E; [discriminate|].
  unfold after in H. rewrite (connect_without_address s E) in H.
  cbn [snd] in H. specialize (I H). congruence.
Qed.

Lemma call_keeps_invariant (m : method) (s : state) :
  live_link_has_address s -> live_link_has_address (call m s).
Proof.
  intros I.
  destruct quiet_methods as (Q1 & Q2 & Q3 & Q4 & Q5 & Q6 & Q7 & Q8 & Q9 & Q10).
  destruct m; cbn [call];
    try solve [apply quiet_keeps_invariant; auto with quiet].
  - intros H. destruct (find_device_address s) as [N|[E C]]; [exact N|].
    rewrite E. apply I. congruence.
  - now apply connect_keeps_invariant.
  - destruct (address (self s)) eqn:E.
    + unfold after. rewrite aenter_with_address by congruence.
      now apply connect_keeps_invariant.
    + unfold after. rewrite (aenter_without_address s E). exact I.
Qed.

(** In every state a driver reaches, a live link has an address. *)
Lemma reachable_live_link_has_address (s : state) :
  reachable s -> connected s = true -> address (self s) <> None.
Proof.
  induction 1 as [a w|m s R IH|s w R IH|s R IH].
  - discriminate.
  - now apply call_keeps_invariant.
  - exact IH.
  - destruct s as [[a [c|]] w]; discriminate.
Qed.

(** ** The session *)

Example lower_service_uuid : lower SERVICE_A_UUID = primary_service.
Proof. reflexivity. Qed.

Lemma for_service_breaks_In (services : list string) :
  for_service_breaks services = true <-> In primary_service services.
Proof.
  rewrite <- lower_service_uuid.
  induction services as [|uuid rest IH]; cbn [for_service_breaks In].
  - split; [discriminate | tauto].
  - destruct (String.eqb_spec uuid (lower SERVICE_A_UUID)) as [->|N].
    + split; auto.
    + rewrite IH. split; [auto | intros [E|I]; congruence].
Qed.

Lemma connect_when_connected (s : state) :
  address (self s) <> None -> connected s = true ->
  connect s = (Raised AlreadyConnectedError, s).
Proof.
  destruct s as [[[a|] [[ca [|] cs]|]] w]; unfold_methods; cbn; intros A H;
    congruence.
Qed.

Lemma connect_other_model (s : state) :
  address (self s) <> None -> connected s = false ->
  fst (fst (Bleak.connect (handle s) (world s))) = Returned tt ->
  ~ In primary_service (Bleak.peer_services (world s)) ->
  outcome connect s = Raised DeviceIsNotCoyote20Error
  /\ connected (after connect s) = false
  /\ calls (after connect s) = calls s ++ [Bleak.Connect; Bleak.Disconnect].
Proof.
  intros A H T P. rewrite <- for_service_breaks_In in P.
  apply not_true_is_false in P. revert A H T P.
  destruct s as [[a cl] w].
  destruct a as [a|]; [|intros A; exfalso; apply A; reflexivity].
  intros _.
  destruct cl as [[ca cc cs]|]; unfold_methods; unfold handle, Bleak.connect;
    cbn; intros H T P.
  - subst cc. cbn in *. destruct ca as [ca|]; [|discriminate T].
    destruct (Bleak.reachable w); [|discriminate T]. cbn.
    rewrite P. cbn. rewrite <- app_assoc. repeat split.
  - destruct (Bleak.reachable w); [|discriminate T]. cbn.
    rewrite P. cbn. rewrite <- app_assoc. repeat split.
Qed.

Lemma connect_expected_model (s : state) :
  address (self s) <> None -> connected s = false ->
  fst (fst (Bleak.connect (handle s) (world s))) = Returned tt ->
  In primary_service (Bleak.peer_services (world s)) ->
  outcome connect s = Returned tt
  /\ connected (after connect s) = true
  /\ calls (after connect s) = calls s ++ [Bleak.Connect].
Proof.
  intros A H T P. rewrite <- for_service_breaks_In in P.
  revert A H T P.
  destruct s as [[a cl] w].
  destruct a as [a|]; [|intros A; exfalso; apply A; reflexivity].
  intros _.
  destruct cl as [[ca cc cs]|]; unfold_methods; unfold handle, Bleak.connect;
    cbn; intros H T P.
  - subst cc. cbn in *. destruct ca as [ca|]; [|discriminate T].
    destruct (Bleak.reachable w); [|discriminate T]. cbn.
    rewrite P. repeat split.
  - destruct (Bleak.reachable w); [|discriminate T]. cbn.
    rewrite P. repeat split.
Qed.

(** C6.  In every state a driver reaches, [connect] on a live link raises
    [AlreadyConnectedError] and changes nothing, so the link stays up; and
    [connect] with an address on a link that is down, when the transport
    connects and the services enumerated lack the primary one, disconnects,
    which leaves the link down, and then raises
    [DeviceIsNotCoyote20Error]. *)
Theorem connect_error_transitions (s : state) :
  reachable s ->
  (connected s = true ->
   connect s = (Raised AlreadyConnectedError, s)
   /\ connected (after connect s) = true)
  /\ (connected s = false ->
      address (self s) <> None ->
      fst (fst (Bleak.connect (handle s) (world s))) = Returned tt ->
      ~ In primary_service (Bleak.peer_services (world s)) ->
      outcome connect s = Raised DeviceIsNotCoyote20Error
      /\ connected (after connect s) = false
      /\ calls (after connect s) = calls s ++ [Bleak.Connect; Bleak.Disconnect]).
Proof.
  intros R. split.
  - intros H.
    pose proof (reachable_live_link_has_address s R H) as A.
    pose proof (connect_when_connected s A H) as E.
    split; [exact E|]. unfold after. now rewrite E.
  - intros H A. now apply connect_other_model.
Qed.

Lemma connect_error_transitions_sessions :
  (reachable (session coyote_world)
   /\ connected (session coyote_world) = true)
  /\ (reachable (fresh (Some "C1:A9:D8:12:34:56") other_world)
      /\ connected (fresh (Some "C1:A9:D8:12:34:56") other_world) = false
      /\ address (self (fresh (Some "C1:A9:D8:12:34:56") other_world)) <> None
      /\ ~ In primary_service (Bleak.peer_services other_world))
  /\ outcome connect (session coyote_world) = Raised AlreadyConnectedError
  /\ connected (after connect (session coyote_world)) = true
  /\ outcome connect (fresh (Some "C1:A9:D8:12:34:56") other_world)
     = Raised DeviceIsNotCoyote20Error
  /\ connected (after connect (fresh (Some "C1:A9:D8:12:34:56") other_world))
     = false
  /\ calls (after connect (fresh (Some "C1:A9:D8:12:34:56") other_world))
     = [Bleak.Connect; Bleak.Disconnect].
Proof.
  assert (R2 : reachable (fresh (Some "C1:A9:D8:12:34:56") other_world))
    by apply reachable_init.
  assert (R1 : reachable (session coyote_world))
    by apply (reachable_call Call_connect), reachable_init.
  assert (A2 : address (self (fresh (Some "C1:A9:D8:12:34:56") other_world)) <> None)
    by discriminate.
  assert (P : ~ In primary_service (Bleak.peer_services other_world)).
  { cbn. intros [E|[]]. discriminate E. }
  destruct (connect_error_transitions _ R1) as (T1 & _).
  destruct (connect_error_transitions _ R2) as (_ & T2).
  destruct (T1 eq_refl) as (E1 & C1).
  destruct (T2 eq_refl A2 eq_refl P) as (E2 & C2 & K2).
  split. { split; [exact R1 | reflexivity]. }
  split. { split; [exact R2|]. split; [reflexivity|]. split; [exact A2 | exact P]. }
  split. { unfold outcome. now rewrite E1. }
  split. { exact C1. }
  split. { exact E2. }
  split. { exact C2. }
  exact K2.
Defined.

(** C7.  When [__aenter__] has returned, the scope runs its body and then
    [disconnect] once: the transport's record after the scope is the
    record after the body with one [Disconnect] added, the link is down,
    and what the body returned or raised is what the scope returns or
    raises. *)
Theorem scope_exit_disconnects_once {A} (body : M A) (s s1 s2 : state)
  (r : result A) :
  __aenter__ s = (Returned tt, s1) ->
  body s1 = (r, s2) ->
  outcome (async_with body) s
  = match r with
    | Returned a => Returned (Some a)
    | Raised e => Raised e
    end
  /\ calls (after (async_with body) s) = calls s2 ++ [Bleak.Disconnect]
  /\ connected (after (async_with body) s) = false.
Proof.
  intros E B. unfold outcome, after, async_with. rewrite E, B.
  destruct (disconnect_runs s2) as (O & C & K).
  unfold outcome, after in O, C, K.
  unfold __aexit__, bind, ret.
  destruct (disconnect s2) as [[e|[]] s3]; cbn in O, C, K; [discriminate O|].
  destruct r as [e|a]; cbn; auto.
Qed.

Lemma scope_exit_disconnects_once_on_error :
  __aenter__ (fresh (Some "C1:A9:D8:12:34:56") coyote_world)
  = (Returned tt, session coyote_world)
  /\ outcome (async_with (write_wave_a 32 0 0))
       (fresh (Some "C1:A9:D8:12:34:56") coyote_world)
     = Raised (AssertionError (Some "Not a vaild wave"))
  /\ calls (after (async_with (write_wave_a 32 0 0))
              (fresh (Some "C1:A9:D8:12:34:56") coyote_world))
     = [Bleak.Connect; Bleak.Disconnect]
  /\ connected (after (async_with (write_wave_a 32 0 0))
                  (fresh (Some "C1:A9:D8:12:34:56") coyote_world))
     = false.
Proof.
  split; [reflexivity|].
  exact (scope_exit_disconnects_once (write_wave_a 32 0 0)
           (fresh (Some "C1:A9:D8:12:34:56") coyote_world)
           (session coyote_world) (session coyote_world)
           (Raised (AssertionError (Some "Not a vaild wave")))
           eq_refl eq_refl).
Defined.

(** C2, the code with no address known.  Line 79 does not await
    [find_device]: no scan is made, the coroutine object is true, so
    [DeviceNotFoundError] is not raised, and [connect] is entered, where
    the assertion on the address fails.  Nothing has changed: the
    transport's record is as before, and the address is still unknown,
    whether or not a device is advertising. *)
Theorem enter_without_address (s : state) :
  address (self s) = None ->
  __aenter__ s = (Raised (AssertionError None), s)
  /\ outcome __aenter__ s <> Raised DeviceNotFoundError
  /\ calls (after __aenter__ s) = calls s
  /\ address (self (after __aenter__ s)) = None
  /\ (forall A (body : M A),
         async_with body s = (Raised (AssertionError None), s)).
Proof.
  intros N. pose proof (aenter_without_address s N) as E.
  unfold outcome, after, async_with. rewrite E. cbn [fst snd].
  repeat split; try assumption. discriminate.
Qed.

Lemma enter_without_address_silent :
  address (self (fresh None silent_world)) = None
  /\ outcome find_device (fresh None silent_world) = Returned false
  /\ outcome __aenter__ (fresh None silent_world) = Raised (AssertionError None)
  /\ outcome __aenter__ (fresh None silent_world) <> Raised DeviceNotFoundError
  /\ calls (after __aenter__ (fresh None silent_world)) = [].
Proof.
  split; [reflexivity|]. split; [reflexivity|].
  destruct (enter_without_address (fresh None silent_world) eq_refl)
    as (E & D & K & _).
  unfold outcome. rewrite E. split; [reflexivity|].
  split; [exact D | exact K].
Defined.

Example enter_without_address_advertising :
  outcome find_device (fresh None coyote_world) = Returned true
  /\ address (self (after find_device (fresh None coyote_world)))
     = Some "C1:A9:D8:12:34:56"
  /\ outcome __aenter__ (fresh None coyote_world) = Raised (AssertionError None)
  /\ calls (after __aenter__ (fresh None coyote_world)) = [].
Proof. repeat split. Qed.

(** ** The wave channels *)

(** C9.  On a live link a read of wave A asks for the characteristic
    955A1506 and a read of wave B for 955A1505, and a write of fields in
    range writes their payload to the same characteristic as the read of
    its channel: one call each, on the characteristic of the other
    suffix letter than the channel's name. *)
Theorem wave_channels_swapped (s : state) :
  connected s = true ->
  PWM_B34_UUID = "955A1506-0FE2-F5AA-A094-84B8D4F3E8AD"
  /\ PWM_A34_UUID = "955A1505-0FE2-F5AA-A094-84B8D4F3E8AD"
  /\ calls (after read_wave_a s)
     = calls s ++ [Bleak.ReadGattChar "955A1506-0FE2-F5AA-A094-84B8D4F3E8AD"]
  /\ calls (after read_wave_b s)
     = calls s ++ [Bleak.ReadGattChar "955A1505-0FE2-F5AA-A094-84B8D4F3E8AD"]
  /\ (forall x y z,
         0 <= x <= 31 -> 0 <= y <= 1023 -> 0 <= z <= 31 ->
         exists data,
           wave_bytes x y z = Returned data
           /\ calls (after (write_wave_a x y z) s)
              = calls s
                ++ [Bleak.WriteGattChar "955A1506-0FE2-F5AA-A094-84B8D4F3E8AD" data]
           /\ calls (after (write_wave_b x y z) s)
              = calls s
                ++ [Bleak.WriteGattChar "955A1505-0FE2-F5AA-A094-84B8D4F3E8AD" data]).
Proof.
  intros H. split; [reflexivity|]. split; [reflexivity|].
  unfold read_wave_a, read_wave_b, write_wave_a, write_wave_b, after.
  rewrite !read_wave_up by assumption. split; [reflexivity|].
  split; [reflexivity|].
  intros x y z Hx Hy Hz.
  destruct (write_wave_up PWM_B34_UUID x y z s Hx Hy Hz H) as (data & E & Wa).
  destruct (write_wave_up PWM_A34_UUID x y z s Hx Hy Hz H) as (data' & E' & Wb).
  rewrite E in E'. injection E' as <-.
  exists data. rewrite Wa, Wb. repeat split. exact E.
Qed.

Lemma wave_channels_swapped_session :
  connected (session coyote_world) = true
  /\ calls (after read_wave_a (session coyote_world))
     = [Bleak.Connect;
        Bleak.ReadGattChar "955A1506-0FE2-F5AA-A094-84B8D4F3E8AD"]
  /\ calls (after read_wave_b (session coyote_world))
     = [Bleak.Connect;
        Bleak.ReadGattChar "955A1505-0FE2-F5AA-A094-84B8D4F3E8AD"].
Proof.
  split; [reflexivity|].
  destruct (wave_channels_swapped (session coyote_world) eq_refl)
    as (_ & _ & Ra & Rb & _).
  split; [exact Ra | exact Rb].
Defined.

(** ** The intensity as a float *)

Lemma of_float_truncates (x : float) :
  match Prim2SF x with
  | S754_nan => PyInt.of_float x = Raised ValueError
  | S754_infinity _ => PyInt.of_float x = Raised OverflowError
  | S754_zero _ => PyInt.of_float x = Returned 0
  | S754_finite s m e =>
      exists n,
        PyInt.of_float x = Returned (if s then - n else n)
        /\ n * 2 ^ Z.max 0 (- e) <= Z.pos m * 2 ^ Z.max 0 e
           < (n + 1) * 2 ^ Z.max 0 (- e)
  end.
Proof.
  unfold PyInt.of_float. destruct (Prim2SF x) as [s| s| |s m e]; try reflexivity.
  destruct (Z.leb_spec 0 e) as [He|He].
  - exists (Z.shiftl (Z.pos m) e). split; [reflexivity|].
    rewrite Z.shiftl_mul_pow2 by lia.
    replace (Z.max 0 (- e)) with 0 by lia. replace (Z.max 0 e) with e by lia.
    change (2 ^ 0) with 1. lia.
  - exists (Z.shiftr (Z.pos m) (- e)). split; [reflexivity|].
    rewrite Z.shiftr_div_pow2 by lia.
    replace (Z.max 0 (- e)) with (- e) by lia. replace (Z.max 0 e) with 0 by lia.
    change (2 ^ 0) with 1.
    assert (P : 0 < 2 ^ (- e)) by (apply Z.pow_pos_nonneg; lia).
    pose proof (Z.div_mod (Z.pos m) (2 ^ (- e)) ltac:(lia)) as D.
    pose proof (Z.mod_pos_bound (Z.pos m) (2 ^ (- e)) P) as B.
    nia.
Qed.

Lemma quotient_by_float_division (real_strength : Z) :
  0 <= real_strength <= 2047 ->
  strength_of_real real_strength
  = Returned (PrimFloat.of_uint63 (Uint63.of_Z real_strength) / 7)%float.
Proof.
  intros R.
  assert (A : forallb quotient_is_float_division (map Z.of_nat (seq 0 2048)) = true)
    by (vm_compute; reflexivity).
  rewrite forallb_forall in A.
  specialize (A real_strength).
  assert (I : In real_strength (map Z.of_nat (seq 0 2048))).
  { apply in_map_iff. exists (Z.to_nat real_strength).
    split; [lia|]. apply in_seq. lia. }
  specialize (A I). unfold quotient_is_float_division in A.
  destruct (strength_of_real real_strength) as [e|f]; [discriminate A|].
  apply FloatAxioms.Leibniz.eqb_spec in A. now rewrite A.
Qed.

(** C8.  [write_strength] converts each intensity by [int(v * 7)], which
    truncates toward zero and does not round to nearest: 1.0 gives 7, 0.5
    gives 3 (3.5 truncated), 0.25 gives 1 and -0.5 gives -3.  For every
    pair of floats and every state the method is [_write_real_strength] on
    the two truncations, or the error of the first conversion that fails,
    with nothing done; on a live link, truncations in range are written as
    their three bytes, and (1.0, 0.5) as the bytes of the raw pair (7, 3).
    [get_strength] converts each raw value by the quotient [raw / 7]: on a
    live link it makes one read and returns the quotients of the two raw
    fields of the payload, or the error of the first quotient too large
    for a float; for raw fields of a three-byte payload these are the
    float quotients by 7.0, and 7 gives 1.0. *)
Theorem strength_conversions :
  real_of_strength 1 = Returned 7
  /\ real_of_strength 0.5 = Returned 3
  /\ real_of_strength 0.25 = Returned 1
  /\ real_of_strength (-0.5) = Returned (-3)
  /\ strength_of_real 7 = Returned 1%float
  /\ (forall s, write_strength 1 0.5 s = _write_real_strength 7 3 s)
  /\ (forall v,
         match Prim2SF (v * 7)%float with
         | S754_finite sign m e =>
             exists n,
               real_of_strength v = Returned (if sign then - n else n)
               /\ n * 2 ^ Z.max 0 (- e) <= Z.pos m * 2 ^ Z.max 0 e
                  < (n + 1) * 2 ^ Z.max 0 (- e)
         | S754_zero _ => real_of_strength v = Returned 0
         | S754_infinity _ => real_of_strength v = Raised OverflowError
         | S754_nan => real_of_strength v = Raised ValueError
         end)
  /\ (forall real_strength,
         0 <= real_strength <= 2047 ->
         strength_of_real real_strength
         = Returned (PrimFloat.of_uint63 (Uint63.of_Z real_strength) / 7)%float)
  /\ (forall strength_a strength_b s,
         write_strength strength_a strength_b s
         = match PyInt.of_float (strength_a * 7)%float with
           | Raised e => (Raised e, s)
           | Returned real_strength_a =>
               match PyInt.of_float (strength_b * 7)%float with
               | Raised e => (Raised e, s)
               | Returned real_strength_b =>
                   _write_real_strength real_strength_a real_strength_b s
               end
           end)
  /\ (forall strength_a strength_b a b s,
         connected s = true ->
         PyInt.of_float (strength_a * 7)%float = Returned a ->
         PyInt.of_float (strength_b * 7)%float = Returned b ->
         0 <= a <= 2047 -> 0 <= b <= 2047 ->
         exists data,
           real_strength_bytes a b = Returned data
           /\ write_strength strength_a strength_b s
              = (Returned tt,
                 logged (Bleak.WriteGattChar PWM_AB2_UUID data) s))
  /\ (forall s,
         connected s = true ->
         write_strength 1 0.5 s
         = (Returned tt,
            logged (Bleak.WriteGattChar PWM_AB2_UUID [x0c; xe0; x00]) s))
  /\ (forall s,
         connected s = true ->
         get_strength s
         = (let '(real_strength_a, real_strength_b) :=
              real_strength_of_bytes
                (Bleak.characteristic (world s) PWM_AB2_UUID) in
            match PyInt.true_div real_strength_a 7 with
            | Raised e => Raised e
            | Returned strength_a =>
                match PyInt.true_div real_strength_b 7 with
                | Raised e => Raised e
                | Returned strength_b => Returned (strength_a, strength_b)
                end
            end,
            logged (Bleak.ReadGattChar PWM_AB2_UUID) s))
  /\ (forall s a b,
         connected s = true ->
         real_strength_of_bytes (Bleak.characteristic (world s) PWM_AB2_UUID)
         = (a, b) ->
         0 <= a <= 2047 -> 0 <= b <= 2047 ->
         get_strength s
         = (Returned ((PrimFloat.of_uint63 (Uint63.of_Z a) / 7)%float,
                      (PrimFloat.of_uint63 (Uint63.of_Z b) / 7)%float),
            logged (Bleak.ReadGattChar PWM_AB2_UUID) s)).
Proof.
  assert (W : forall strength_a strength_b s,
             write_strength strength_a strength_b s
             = match PyInt.of_float (strength_a * 7)%float with
               | Raised e => (Raised e, s)
               | Returned real_strength_a =>
                   match PyInt.of_float (strength_b * 7)%float with
                   | Raised e => (Raised e, s)
                   | Returned real_strength_b =>
                       _write_real_strength real_strength_a real_strength_b s
                   end
               end).
  { intros va vb s. unfold write_strength, real_of_strength, bind, lift.
    destruct (PyInt.of_float (va * 7)%float); [reflexivity|].
    destruct (PyInt.of_float (vb * 7)%float); reflexivity. }
  assert (G : forall s,
             connected s = true ->
             get_strength s
             = (let '(real_strength_a, real_strength_b) :=
                  real_strength_of_bytes
                    (Bleak.characteristic (world s) PWM_AB2_UUID) in
                match PyInt.true_div real_strength_a 7 with
                | Raised e => Raised e
                | Returned strength_a =>
                    match PyInt.true_div real_strength_b 7 with
                    | Raised e => Raised e
                    | Returned strength_b => Returned (strength_a, strength_b)
                    end
                end,
                logged (Bleak.ReadGattChar PWM_AB2_UUID) s)).
  { intros s H. unfold get_strength.
    rewrite (bind_returned _ _ _ _ _ (get_real_strength_up s H)).
    destruct (real_strength_of_bytes _) as [a b].
    unfold strength_of_real, bind, lift, ret.
    destruct (PyInt.true_div a 7); [reflexivity|].
    destruct (PyInt.true_div b 7); reflexivity. }
  assert (U : forall strength_a strength_b a b s,
             connected s = true ->
             PyInt.of_float (strength_a * 7)%float = Returned a ->
             PyInt.of_float (strength_b * 7)%float = Returned b ->
             0 <= a <= 2047 -> 0 <= b <= 2047 ->
             exists data,
               real_strength_bytes a b = Returned data
               /\ write_strength strength_a strength_b s
                  = (Returned tt,
                     logged (Bleak.WriteGattChar PWM_AB2_UUID data) s)).
  { intros va vb a b s H Ea Eb Ra Rb.
    destruct (write_real_strength_up a b s Ra Rb H) as (data & E & X).
    exists data. split; [exact E|]. now rewrite W, Ea, Eb. }
  repeat (split; [now intros|]).
  split.
  { intros v. unfold real_of_strength.
    pose proof (of_float_truncates (v * 7)%float) as T.
    destruct (Prim2SF (v * 7)%float); exact T. }
  split; [apply quotient_by_float_division|].
  split; [exact W|]. split; [exact U|]. split.
  { intros s H.
    destruct (U 1%float 0.5%float 7 3 s H eq_refl eq_refl ltac:(lia) ltac:(lia))
      as (data & E & X).
    rewrite X. cbv in E. now injection E as <-. }
  split; [exact G|].
  intros s a b H D Ra Rb. rewrite (G s H), D.
  pose proof (quotient_by_float_division a Ra) as Qa.
  pose proof (quotient_by_float_division b Rb) as Qb.
  unfold strength_of_real in Qa, Qb. now rewrite Qa, Qb.
Qed.

Lemma strength_conversions_at_3 :
  (connected (session seven_three_world) = true
   /\ real_strength_of_bytes
        (Bleak.characteristic (world (session seven_three_world)) PWM_AB2_UUID)
      = (7, 3)
   /\ 0 <= 7 <= 2047 /\ 0 <= 3 <= 2047)
  /\ outcome get_strength (session seven_three_world)
     = Returned (1%float, (PrimFloat.of_uint63 (Uint63.of_Z 3) / 7)%float)
  /\ calls (after get_strength (session seven_three_world))
     = [Bleak.Connect; Bleak.ReadGattChar PWM_AB2_UUID]
  /\ calls (after (write_strength 1 0.5) (session seven_three_world))
     = [Bleak.Connect; Bleak.WriteGattChar PWM_AB2_UUID [x0c; xe0; x00]].
Proof.
  destruct strength_conversions
    as (_ & _ & _ & _ & _ & _ & _ & _ & _ & _ & W & _ & G).
  assert (H : connected (session seven_three_world) = true) by reflexivity.
  assert (D : real_strength_of_bytes
                (Bleak.characteristic (world (session seven_three_world))
                   PWM_AB2_UUID) = (7, 3)) by reflexivity.
  split; [repeat split; (assumption || lia)|].
  unfold outcome, after.
  rewrite (G _ 7 3 H D ltac:(lia) ltac:(lia)), (W _ H).
  repeat split.
Defined.

(** * Further properties of the driver *)

(** ** The handle across the methods *)

Section HandleRelation.

Variable R : handle_relation.

Hypothesis R_refl : forall o, R o o.
Hypothesis R_trans : forall o1 o2 o3, R o1 o2 -> R o2 o3 -> R o1 o3.
Hypothesis R_new : forall a, R None (Some (Bleak.new a)).
Hypothesis R_disconnect :
  forall c w, R (Some c) (Some (snd (fst (Bleak.disconnect c w)))).
Hypothesis R_read :
  forall uuid c w, R (Some c) (Some (snd (fst (Bleak.read_gatt_char uuid c w)))).
Hypothesis R_write :
  forall uuid data c w,
    R (Some c) (Some (snd (fst (Bleak.write_gatt_char uuid data c w)))).

Lemma respects_ret {A} (a : A) : respects R (ret a).
Proof. intros s. apply R_refl. Qed.

Lemma respects_raise {A} (e : exn) : respects R (@raise A e).
Proof. intros s. apply R_refl. Qed.

Lemma respects_lift {A} (r : result A) : respects R (lift r).
Proof. intros s. apply R_refl. Qed.

Lemma respects_assert (cond : bool) (msg : option string) :
  respects R (assert_ cond msg).
Proof. intros s. destruct cond; apply R_refl. Qed.

Lemma respects_get_address : respects R get_address.
Proof. intros s. apply R_refl. Qed.

Lemma respects_set_address (a : option string) : respects R (set_address a).
Proof. intros s. apply R_refl. Qed.

Lemma respects_bind {A B} (m : M A) (k : A -> M B) :
  respects R m -> (forall a, respects R (k a)) -> respects R (bind m k).
Proof.
  intros Hm Hk s. specialize (Hm s). unfold after, bind in *.
  destruct (m s) as [[e|a] s1]; cbn [snd] in *; [exact Hm|].
  specialize (Hk a s1). unfold after in Hk. eapply R_trans; eassumption.
Qed.

Lemma respects_client : respects R client.
Proof.
  intros [[a [c|]] w]; cbn; [apply R_refl | apply R_new].
Qed.

Lemma respects_is_connected : respects R is_connected.
Proof.
  intros [[a [c|]] w]; cbn; [apply R_refl | apply R_new].
Qed.

Lemma respects_on_client {A}
  (method : Bleak.BleakClient -> Bleak.world
            -> result A * Bleak.BleakClient * Bleak.world) :
  (forall c w, R (Some c) (Some (snd (fst (method c w))))) ->
  respects R (on_client method).
Proof.
  intros Hm [[a [c|]] w]; unfold_methods; cbn.
  - specialize (Hm c w). destruct (method c w) as [[r c'] w']. exact Hm.
  - specialize (Hm (Bleak.new a) w).
    destruct (method (Bleak.new a) w) as [[r c'] w']. cbn in *.
    eapply R_trans; [apply R_new | exact Hm].
Qed.

Lemma respects_find_device : respects R find_device.
Proof.
  intros [[a cl] w]. unfold_methods. unfold Bleak.find_device_by_name. cbn.
  destruct (Bleak.advertised w BLE_DEVICE_NAME); apply R_refl.
Qed.

Lemma respects_disconnect : respects R disconnect.
Proof. apply respects_on_client, R_disconnect. Qed.

Lemma respects_read_gatt_char (uuid : string) :
  respects R (on_client (Bleak.read_gatt_char uuid)).
Proof. apply respects_on_client, R_read. Qed.

Lemma respects_write_gatt_char (uuid : string) (data : list byte) :
  respects R (on_client (Bleak.write_gatt_char uuid data)).
Proof. apply respects_on_client, R_write. Qed.

Ltac respects_steps :=
  repeat first
    [ solve [auto using respects_ret, respects_raise, respects_lift,
               respects_assert, respects_get_address, respects_set_address,
               respects_client, respects_is_connected, respects_find_device,
               respects_disconnect, respects_read_gatt_char,
               respects_write_gatt_char]
    | match goal with
      | |- respects R (bind _ _) => apply respects_bind; [|intro]
      | |- respects R (if ?b then _ else _) => destruct b
      | |- respects R (match ?x with _ => _ end) => destruct x
      end ].

Lemma respects_check_connection : respects R __check_connection.
Proof. unfold __check_connection. respects_steps. Qed.

Lemma respects_reads_and_writes :
  respects R __aexit__ /\ respects R get_battery_level
  /\ respects R _get_real_strength /\ respects R get_strength
  /\ (forall uuid, respects R (__read_wave uuid))
  /\ (forall a b, respects R (_write_real_strength a b))
  /\ (forall a b, respects R (write_strength a b))
  /\ (forall uuid x y z, respects R (__write_wave uuid x y z)).
Proof.
  pose proof respects_check_connection.
  repeat match goal with |- _ /\ _ => split end; intros;
    unfold __aexit__, get_battery_level, get_strength, _get_real_strength,
      write_strength, _write_real_strength, __read_wave, __write_wave;
    respects_steps.
Qed.

Hypothesis R_connect :
  forall c w, R (Some c) (Some (snd (fst (Bleak.connect c w)))).

Lemma respects_connect : respects R connect.
Proof.
  unfold connect.
  pose proof (respects_on_client Bleak.connect R_connect).
  respects_steps.
Qed.

Lemma respects_aenter : respects R __aenter__.
Proof.
  unfold __aenter__. pose proof respects_connect. respects_steps.
Qed.

Lemma respects_call (m : method) (s : state) :
  R (__client (self s)) (__client (self (call m s))).
Proof.
  destruct respects_reads_and_writes as (Q1 & Q2 & Q3 & Q4 & Q5 & Q6 & Q7 & Q8).
  destruct m; cbn [call];
    first [ apply respects_find_device | apply respects_connect
          | apply respects_disconnect | apply respects_aenter
          | apply Q1 | apply Q2 | apply Q3 | apply Q4 | apply Q5
          | apply Q6 | apply Q7 | apply Q8 ].
Qed.

End HandleRelation.

Lemma same_target_refl (o : option Bleak.BleakClient) : same_target o o.
Proof. intros c E. now exists c. Qed.

Lemma same_target_trans (o1 o2 o3 : option Bleak.BleakClient) :
  same_target o1 o2 -> same_target o2 o3 -> same_target o1 o3.
Proof.
  intros H12 H23 c E. destruct (H12 c E) as (c2 & E2 & A2).
  destruct (H23 c2 E2) as (c3 & E3 & A3). exists c3. split; congruence.
Qed.

Lemma same_target_step (c c' : Bleak.BleakClient) :
  Bleak.address_or_ble_device c' = Bleak.address_or_ble_device c ->
  same_target (Some c) (Some c').
Proof.
  intros A c0 E. injection E as <-. now exists c'.
Qed.

Lemma untouched_when_up_trans (o1 o2 o3 : option Bleak.BleakClient) :
  untouched_when_up o1 o2 -> untouched_when_up o2 o3 -> untouched_when_up o1 o3.
Proof.
  intros H12 H23 c E U. apply (H12 c); [|exact U]. now apply H23.
Qed.

(** X1.  A handle, once created, stays the driver's handle and stays a
    handle for the address it was created for, whatever method is called:
    the address [find_device] stores later does not reach it. *)
Theorem handle_keeps_its_address (m : method) (s : state)
  (c : Bleak.BleakClient) :
  __client (self s) = Some c ->
  exists c',
    __client (self (call m s)) = Some c'
    /\ Bleak.address_or_ble_device c' = Bleak.address_or_ble_device c.
Proof.
  apply (respects_call same_target same_target_refl same_target_trans).
  - intros a c0 E. discriminate E.
  - intros c0 w. now apply same_target_step.
  - intros uuid c0 w. apply same_target_step. unfold Bleak.read_gatt_char.
    now destruct (Bleak.is_connected c0).
  - intros uuid data c0 w. apply same_target_step. unfold Bleak.write_gatt_char.
    now destruct (Bleak.is_connected c0).
  - intros c0 w. apply same_target_step. unfold Bleak.connect.
    destruct (Bleak.address_or_ble_device c0) eqn:E;
      [destruct (Bleak.reachable w)|]; cbn; congruence.
Qed.

Lemma handle_keeps_its_address_after_discovery :
  __client (self (call Call_get_battery_level (fresh None coyote_world)))
  = Some (Bleak.new None)
  /\ address (self (call Call_find_device
                      (call Call_get_battery_level (fresh None coyote_world))))
     = Some "C1:A9:D8:12:34:56"
  /\ exists c',
       __client (self (call Call_find_device
                         (call Call_get_battery_level (fresh None coyote_world))))
       = Some c'
       /\ Bleak.address_or_ble_device c' = None.
Proof.
  split; [reflexivity|]. split; [reflexivity|].
  exact (handle_keeps_its_address Call_find_device
           (call Call_get_battery_level (fresh None coyote_world))
           (Bleak.new None) eq_refl).
Defined.

(** ** The link and the check of the peer *)

Lemma untouched_when_up_call (m : method) (s : state) :
  m <> Call_connect -> m <> Call___aenter__ ->
  untouched_when_up (__client (self s)) (__client (self (call m s))).
Proof.
  intros N1 N2.
  assert (Hrefl : forall o, untouched_when_up o o) by (intros o c E U; exact E).
  assert (Hnew : forall a, untouched_when_up None (Some (Bleak.new a))).
  { intros a c E U. injection E as <-. discriminate U. }
  assert (Hd : forall c w,
             untouched_when_up (Some c) (Some (snd (fst (Bleak.disconnect c w))))).
  { intros c w c' E U. injection E as <-. discriminate U. }
  assert (Hr : forall uuid c w,
             untouched_when_up (Some c)
               (Some (snd (fst (Bleak.read_gatt_char uuid c w))))).
  { intros uuid c w c' E U. unfold Bleak.read_gatt_char in E.
    destruct (Bleak.is_connected c); exact E. }
  assert (Hw : forall uuid data c w,
             untouched_when_up (Some c)
               (Some (snd (fst (Bleak.write_gatt_char uuid data c w))))).
  { intros uuid data c w c' E U. unfold Bleak.write_gatt_char in E.
    destruct (Bleak.is_connected c); exact E. }
  destruct (respects_reads_and_writes untouched_when_up Hrefl
              untouched_when_up_trans Hnew Hd Hr Hw)
    as (Q1 & Q2 & Q3 & Q4 & Q5 & Q6 & Q7 & Q8).
  destruct m; cbn [call]; try congruence;
    first [ apply (respects_find_device untouched_when_up); assumption
          | apply (respects_disconnect untouched_when_up);
              first [assumption | exact untouched_when_up_trans]
          | apply Q1 | apply Q2 | apply Q3 | apply Q4 | apply Q5
          | apply Q6 | apply Q7 | apply Q8 ].
Qed.

Lemma connect_checks (s : state) :
  connected (after connect s) = true ->
  after connect s = s
  \/ In primary_service (Bleak.services (handle (after connect s))).
Proof.
  rewrite <- for_service_breaks_In.
  destruct s as [[[a|] [[[ca|] [|] cs]|]] w];
    unfold_methods; unfold handle, Bleak.connect; cbn; auto;
    destruct (Bleak.reachable w); cbn; auto;
    destruct (for_service_breaks (Bleak.peer_services w)) eqn:E; cbn; auto;
    discriminate.
Qed.

Lemma connect_keeps_checked (s : state) :
  live_link_is_checked s -> live_link_is_checked (after connect s).
Proof.
  intros I H. destruct (connect_checks s H) as [E|P]; [|exact P].
  rewrite E in *. now apply I.
Qed.

Lemma call_keeps_checked (m : method) (s : state) :
  live_link_is_checked s -> live_link_is_checked (call m s).
Proof.
  intros I.
  assert (Q : m <> Call_connect -> m <> Call___aenter__ ->
              live_link_is_checked (call m s)).
  { intros N1 N2 H. pose proof (untouched_when_up_call m s N1 N2) as U.
    unfold live_link_is_checked, connected, handle in *.
    destruct (__client (self (call m s))) as [c'|]; [|discriminate H].
    rewrite (U c' eq_refl H) in I. now apply I. }
  destruct m; try (apply Q; discriminate).
  - now apply connect_keeps_checked.
  - cbn [call]. destruct (address (self s)) eqn:E.
    + unfold after. rewrite aenter_with_address by congruence.
      now apply connect_keeps_checked.
    + unfold after. rewrite (aenter_without_address s E). exact I.
Qed.

(** X2.  In every state a driver reaches, a live link is a link to a peer
    that passed the check of [connect]: the services its handle discovered
    hold the primary service.  No sequence of calls, change of the world
    or drop of the link gives a live link to an unchecked peer. *)
Theorem live_link_passed_the_check (s : state) :
  reachable s ->
  connected s = true ->
  In primary_service (Bleak.services (handle s)).
Proof.
  induction 1 as [a w|m s R IH|s w R IH|s R IH].
  - discriminate.
  - now apply call_keeps_checked.
  - exact IH.
  - destruct s as [[a [c|]] w]; discriminate.
Qed.

Lemma live_link_passed_the_check_session :
  (reachable (session coyote_world) /\ connected (session coyote_world) = true)
  /\ In primary_service (Bleak.services (handle (session coyote_world))).
Proof.
  assert (R : reachable (session coyote_world))
    by apply (reachable_call Call_connect), reachable_init.
  split; [split; [exact R | reflexivity]|].
  exact (live_link_passed_the_check (session coyote_world) R eq_refl).
Defined.

(** ** Discovery *)

(** X3.  [find_device] makes one scan, for the fixed name, and touches
    neither the handle nor the link.  When the scan finds a device it
    returns [True] and the device's address replaces the driver's,
    known or not; when it finds none it returns [False] and the address
    is as before. *)
Theorem find_device_outcome (s : state) :
  calls (after find_device s)
  = calls s ++ [Bleak.FindDeviceByName "D-LAB ESTIM01"]
  /\ __client (self (after find_device s)) = __client (self s)
  /\ match Bleak.advertised (world s) "D-LAB ESTIM01" with
     | Some device_address =>
         outcome find_device s = Returned true
         /\ address (self (after find_device s)) = Some device_address
     | None =>
         outcome find_device s = Returned false
         /\ address (self (after find_device s)) = address (self s)
     end.
Proof.
  destruct s as [[a cl] w]. unfold_methods. unfold Bleak.find_device_by_name.
  cbn. change BLE_DEVICE_NAME with "D-LAB ESTIM01".
  destruct (Bleak.advertised w "D-LAB ESTIM01"); cbn; repeat split.
Qed.

(** ** Outcomes of [connect] *)

Lemma connect_transport_fails (s : state) (e : exn) :
  address (self s) <> None -> connected s = false ->
  fst (fst (Bleak.connect (handle s) (world s))) = Raised e ->
  outcome connect s = Raised e
  /\ connected (after connect s) = false
  /\ calls (after connect s) = calls s ++ [Bleak.Connect].
Proof.
  destruct s as [[[a|] [[[ca|] [|] cs]|]] w];
    unfold_methods; unfold handle, Bleak.connect; cbn;
    intros A H T; try discriminate; try (exfalso; apply A; reflexivity);
    try (destruct (Bleak.reachable w); [discriminate T|]); cbn in *;
    repeat split; assumption.
Qed.

Lemma transport_connect_raises_or_returns (c : Bleak.BleakClient) (w : Bleak.world) :
  fst (fst (Bleak.connect c w)) = Returned tt
  \/ fst (fst (Bleak.connect c w)) = Raised BleakError.
Proof.
  unfold Bleak.connect. destruct (Bleak.address_or_ble_device c); auto.
  destruct (Bleak.reachable w); auto.
Qed.

Lemma connect_cases (s : state) :
  reachable s ->
  (connected s = true /\ connect s = (Raised AlreadyConnectedError, s))
  \/ (connected s = false
      /\ connected (after connect s) = true
      /\ outcome connect s = Returned tt)
  \/ (connected s = false
      /\ connected (after connect s) = false
      /\ exists e, outcome connect s = Raised e /\ e <> AlreadyConnectedError).
Proof.
  intros R. pose proof (reachable_live_link_has_address s R) as I.
  destruct (connected s) eqn:H.
  - left. split; [reflexivity|]. apply connect_when_connected; auto.
  - right. destruct (address (self s)) eqn:A.
    + assert (N : address (self s) <> None) by congruence.
      destruct (transport_connect_raises_or_returns (handle s) (world s)) as [T|T].
      * destruct (in_dec string_dec primary_service (Bleak.peer_services (world s)))
          as [P|P].
        -- left. destruct (connect_expected_model s N H T P) as (O & C & _). auto.
        -- right. destruct (connect_other_model s N H T P) as (O & C & _).
           split; [reflexivity|]. split; [exact C|].
           eexists. split; [exact O | discriminate].
      * right. destruct (connect_transport_fails s _ N H T) as (O & C & _).
        split; [reflexivity|]. split; [exact C|].
        eexists. split; [exact O | discriminate].
    + right. pose proof (connect_without_address s A) as E.
      unfold outcome, after. rewrite E. cbn [fst snd].
      split; [reflexivity|]. split; [exact H|].
      eexists. split; [reflexivity | discriminate].
Qed.

(** X4.  With an address, the link down and a transport that connects,
    [connect] returns exactly when the services enumerated hold the
    primary service, in lower case, at any position; and then the link is
    up after one transport call, the connection. *)
Theorem connect_accepts_the_expected_model (s : state) :
  address (self s) <> None -> connected s = false ->
  fst (fst (Bleak.connect (handle s) (world s))) = Returned tt ->
  (outcome connect s = Returned tt
   <-> In primary_service (Bleak.peer_services (world s)))
  /\ (In primary_service (Bleak.peer_services (world s)) ->
      connected (after connect s) = true
      /\ calls (after connect s) = calls s ++ [Bleak.Connect]).
Proof.
  intros A H T. split; [split|].
  - intros O.
    destruct (in_dec string_dec primary_service (Bleak.peer_services (world s)))
      as [P|P]; [exact P|].
    destruct (connect_other_model s A H T P) as (O' & _). congruence.
  - intros P. now destruct (connect_expected_model s A H T P).
  - intros P. now destruct (connect_expected_model s A H T P) as (_ & C & K).
Qed.

Lemma connect_accepts_the_expected_model_coyote :
  (address (self (fresh (Some "C1:A9:D8:12:34:56") coyote_world)) <> None
   /\ connected (fresh (Some "C1:A9:D8:12:34:56") coyote_world) = false
   /\ In primary_service (Bleak.peer_services coyote_world))
  /\ outcome connect (fresh (Some "C1:A9:D8:12:34:56") coyote_world) = Returned tt
  /\ connected (after connect (fresh (Some "C1:A9:D8:12:34:56") coyote_world))
     = true
  /\ calls (after connect (fresh (Some "C1:A9:D8:12:34:56") coyote_world))
     = [Bleak.Connect].
Proof.
  assert (A : address (self (fresh (Some "C1:A9:D8:12:34:56") coyote_world)) <> None)
    by discriminate.
  assert (P : In primary_service (Bleak.peer_services coyote_world))
    by (right; left; reflexivity).
  destruct (connect_accepts_the_expected_model _ A eq_refl eq_refl) as (I & U).
  destruct (U P) as (C & K).
  split; [repeat split; assumption|].
  split; [apply I, P|]. split; [exact C | exact K].
Defined.

(** X5.  An error of the transport's connection is not caught: [connect]
    raises it as it is, the link stays down, and neither the check of the
    services nor a disconnection follows: the one transport call is the
    connection attempt. *)
Theorem connect_passes_transport_error (s : state) (e : exn) :
  address (self s) <> None -> connected s = false ->
  fst (fst (Bleak.connect (handle s) (world s))) = Raised e ->
  outcome connect s = Raised e
  /\ connected (after connect s) = false
  /\ calls (after connect s) = calls s ++ [Bleak.Connect].
Proof.
  apply connect_transport_fails.
Qed.

Lemma connect_passes_transport_error_silent :
  (address (self (fresh (Some "C1:A9:D8:12:34:56") silent_world)) <> None
   /\ connected (fresh (Some "C1:A9:D8:12:34:56") silent_world) = false
   /\ fst (fst (Bleak.connect (handle (fresh (Some "C1:A9:D8:12:34:56") silent_world))
                  silent_world))
      = Raised BleakError)
  /\ outcome connect (fresh (Some "C1:A9:D8:12:34:56") silent_world)
     = Raised BleakError
  /\ connected (after connect (fresh (Some "C1:A9:D8:12:34:56") silent_world))
     = false
  /\ calls (after connect (fresh (Some "C1:A9:D8:12:34:56") silent_world))
     = [Bleak.Connect].
Proof.
  assert (A : address (self (fresh (Some "C1:A9:D8:12:34:56") silent_world)) <> None)
    by discriminate.
  split; [repeat split; assumption|].
  exact (connect_passes_transport_error _ BleakError A eq_refl eq_refl).
Defined.

(** X6.  In every state a driver reaches, the link is up after [connect]
    exactly when [connect] returned or raised [AlreadyConnectedError]:
    a [connect] that fails in any other way, on a link that was down,
    leaves the link down. *)
Theorem connect_leaves_link_up_iff (s : state) :
  reachable s ->
  (connected (after connect s) = true
   <-> outcome connect s = Returned tt
       \/ outcome connect s = Raised AlreadyConnectedError).
Proof.
  intros R.
  destruct (connect_cases s R) as [(H & E)|[(H & C & O)|(H & C & e & O & N)]].
  - unfold after, outcome. rewrite E. cbn [fst snd]. tauto.
  - rewrite C, O. tauto.
  - rewrite C, O. split; [discriminate|]. intros [X|X]; congruence.
Qed.

Lemma connect_leaves_link_up_iff_other :
  reachable (fresh (Some "C1:A9:D8:12:34:56") other_world)
  /\ outcome connect (fresh (Some "C1:A9:D8:12:34:56") other_world)
     = Raised DeviceIsNotCoyote20Error
  /\ connected (after connect (fresh (Some "C1:A9:D8:12:34:56") other_world))
     <> true.
Proof.
  assert (R : reachable (fresh (Some "C1:A9:D8:12:34:56") other_world))
    by apply reachable_init.
  split; [exact R|]. split; [reflexivity|].
  intros C. apply (connect_leaves_link_up_iff _ R) in C.
  destruct C as [C|C]; discriminate C.
Defined.

(** ** Disconnection, reconnection and the scope *)

(** X7.  [disconnect] checks nothing: whether the link is up or down, and
    whether the handle exists or not, it asks the transport once to
    disconnect, and returns.  The link is down afterwards, and each read
    then raises [NotConnectedError] and asks the transport nothing. *)
Theorem disconnect_then_reads_refused (s : state) :
  outcome disconnect s = Returned tt
  /\ connected (after disconnect s) = false
  /\ calls (after disconnect s) = calls s ++ [Bleak.Disconnect]
  /\ calls (after disconnect (after disconnect s))
     = calls s ++ [Bleak.Disconnect; Bleak.Disconnect]
  /\ (outcome get_battery_level (after disconnect s) = Raised NotConnectedError
      /\ outcome _get_real_strength (after disconnect s) = Raised NotConnectedError
      /\ outcome read_wave_a (after disconnect s) = Raised NotConnectedError
      /\ outcome read_wave_b (after disconnect s) = Raised NotConnectedError)
  /\ (calls (after get_battery_level (after disconnect s))
      = calls s ++ [Bleak.Disconnect]
      /\ calls (after _get_real_strength (after disconnect s))
         = calls s ++ [Bleak.Disconnect]
      /\ calls (after read_wave_a (after disconnect s))
         = calls s ++ [Bleak.Disconnect]
      /\ calls (after read_wave_b (after disconnect s))
         = calls s ++ [Bleak.Disconnect]).
Proof.
  destruct (disconnect_runs s) as (O & C & K).
  destruct (disconnect_runs (after disconnect s)) as (_ & _ & K2).
  pose proof (check_connection_down _ C) as D.
  assert (B : get_battery_level (after disconnect s)
              = (Raised NotConnectedError, after client (after disconnect s)))
    by (unfold get_battery_level; now apply bind_raised).
  assert (G : _get_real_strength (after disconnect s)
              = (Raised NotConnectedError, after client (after disconnect s)))
    by (unfold _get_real_strength; now apply bind_raised).
  assert (W : forall uuid,
             __read_wave uuid (after disconnect s)
             = (Raised NotConnectedError, after client (after disconnect s)))
    by (intros uuid; unfold __read_wave; now apply bind_raised).
  split; [exact O|]. split; [exact C|]. split; [exact K|].
  split; [rewrite K2, K, <- app_assoc; reflexivity|].
  unfold read_wave_a, read_wave_b, outcome.
  rewrite B, G, !W. split; [repeat split|].
  unfold after at 1 3 5 7. rewrite B, G, !W. cbn [snd].
  rewrite calls_after_client, K. repeat split.
Qed.

Lemma logged_world (c : Bleak.call) (w : Bleak.world) :
  Bleak.reachable (Bleak.log c w) = Bleak.reachable w
  /\ Bleak.peer_services (Bleak.log c w) = Bleak.peer_services w
  /\ Bleak.advertised (Bleak.log c w) = Bleak.advertised w
  /\ Bleak.characteristic (Bleak.log c w) = Bleak.characteristic w.
Proof.
  repeat split.
Qed.

(** X8.  A driver can be used for one connection after another: when
    [connect] succeeds from a link that is down, a [disconnect] followed
    by a second [connect] succeeds too, on the same handle, and the
    transport has been asked to connect, disconnect and connect. *)
Theorem connect_disconnect_connect (s : state) :
  address (self s) <> None -> connected s = false ->
  fst (fst (Bleak.connect (handle s) (world s))) = Returned tt ->
  In primary_service (Bleak.peer_services (world s)) ->
  outcome connect s = Returned tt
  /\ outcome disconnect (after connect s) = Returned tt
  /\ outcome connect (after disconnect (after connect s)) = Returned tt
  /\ connected (after connect (after disconnect (after connect s))) = true
  /\ calls (after connect (after disconnect (after connect s)))
     = calls s ++ [Bleak.Connect; Bleak.Disconnect; Bleak.Connect]
  /\ Bleak.address_or_ble_device
       (handle (after connect (after disconnect (after connect s))))
     = Bleak.address_or_ble_device (handle s).
Proof.
  intros A H T P. rewrite <- for_service_breaks_In in P.
  revert A H T P.
  destruct s as [[[a|] [[[ca|] [|] cs]|]] w];
    unfold_methods; unfold handle, Bleak.connect; cbn;
    intros A H T P; try discriminate; try (exfalso; apply A; reflexivity);
    (destruct (Bleak.reachable w) eqn:Rw; [|discriminate T]); cbn;
    repeat (rewrite ?Rw, ?P; cbn); rewrite <- ?app_assoc; repeat split.
Qed.

Lemma connect_disconnect_connect_coyote :
  (address (self (fresh (Some "C1:A9:D8:12:34:56") coyote_world)) <> None
   /\ connected (fresh (Some "C1:A9:D8:12:34:56") coyote_world) = false
   /\ In primary_service (Bleak.peer_services coyote_world))
  /\ connected (after connect (after disconnect (session coyote_world))) = true
  /\ calls (after connect (after disconnect (session coyote_world)))
     = [Bleak.Connect; Bleak.Disconnect; Bleak.Connect].
Proof.
  assert (A : address (self (fresh (Some "C1:A9:D8:12:34:56") coyote_world)) <> None)
    by discriminate.
  assert (P : In primary_service (Bleak.peer_services coyote_world))
    by (right; left; reflexivity).
  destruct (connect_disconnect_connect _ A eq_refl eq_refl P)
    as (_ & _ & _ & C & K & _).
  split; [repeat split; assumption|]. split; [exact C | exact K].
Defined.

(** X9.  In every state a driver reaches, whatever the body: a scope
    entered on a live link raises [AlreadyConnectedError] at once, without
    running the body or disconnecting, and the link stays up; in every
    other case the link is down when the scope is left, whether the
    entry, the body or nothing failed. *)
Theorem scope_leaves_link_down {A} (body : M A) (s : state) :
  reachable s ->
  (connected s = true ->
   async_with body s = (Raised AlreadyConnectedError, s))
  /\ (connected s = false ->
      connected (after (async_with body) s) = false).
Proof.
  intros R. pose proof (reachable_live_link_has_address s R) as I. split.
  - intros H. specialize (I H).
    unfold async_with. rewrite aenter_with_address by assumption.
    now rewrite connect_when_connected.
  - intros H. unfold after, async_with.
    destruct (__aenter__ s) as [[e|[]] s1] eqn:E.
    + cbn [snd]. destruct (address (self s)) eqn:N.
      * rewrite aenter_with_address in E by congruence.
        destruct (connect_cases s R) as [(H' & _)|[(_ & _ & O)|(_ & C & _)]].
        -- congruence.
        -- unfold outcome in O. rewrite E in O. discriminate O.
        -- unfold after in C. now rewrite E in C.
      * rewrite (aenter_without_address s N) in E. now injection E as <- <-.
    + destruct (body s1) as [r s2].
      destruct (disconnect_runs s2) as (O & C & _).
      unfold outcome, after in O, C. unfold __aexit__, bind, ret.
      destruct (disconnect s2) as [[e|[]] s3]; cbn in O, C; [discriminate O|].
      destruct r; exact C.
Qed.

Lemma scope_leaves_link_down_sessions :
  (reachable (session coyote_world) /\ connected (session coyote_world) = true)
  /\ (reachable (fresh (Some "C1:A9:D8:12:34:56") other_world)
      /\ connected (fresh (Some "C1:A9:D8:12:34:56") other_world) = false)
  /\ async_with get_battery_level (session coyote_world)
     = (Raised AlreadyConnectedError, session coyote_world)
  /\ connected (after (async_with get_battery_level)
                  (fresh (Some "C1:A9:D8:12:34:56") other_world))
     = false.
Proof.
  assert (R1 : reachable (session coyote_world))
    by apply (reachable_call Call_connect), reachable_init.
  assert (R2 : reachable (fresh (Some "C1:A9:D8:12:34:56") other_world))
    by apply reachable_init.
  split; [split; [exact R1 | reflexivity]|].
  split; [split; [exact R2 | reflexivity]|].
  split.
  - exact (proj1 (scope_leaves_link_down get_battery_level _ R1) eq_refl).
  - exact (proj2 (scope_leaves_link_down get_battery_level _ R2) eq_refl).
Defined.

(** X10.  Discovery awaited by the caller, then the entry of the scope:
    on a driver without handle, when the scan finds a device, the
    transport connects and the peer has the primary service, [__aenter__]
    after [find_device] returns with the link up, on a handle created for
    the address found; the transport was asked to scan and to connect. *)
Theorem discover_then_enter (s : state) (device_address : string) :
  __client (self s) = None ->
  Bleak.advertised (world s) BLE_DEVICE_NAME = Some device_address ->
  Bleak.reachable (world s) = true ->
  In primary_service (Bleak.peer_services (world s)) ->
  outcome find_device s = Returned true
  /\ outcome __aenter__ (after find_device s) = Returned tt
  /\ connected (after __aenter__ (after find_device s)) = true
  /\ Bleak.address_or_ble_device (handle (after __aenter__ (after find_device s)))
     = Some device_address
  /\ calls (after __aenter__ (after find_device s))
     = calls s ++ [Bleak.FindDeviceByName BLE_DEVICE_NAME; Bleak.Connect].
Proof.
  intros N F T P. rewrite <- for_service_breaks_In in P.
  revert N F T P.
  destruct s as [[a cl] w]. unfold_methods.
  unfold handle, Bleak.find_device_by_name, Bleak.connect. cbn.
  intros -> F T P. repeat (rewrite ?F, ?T, ?P; cbn).
  rewrite <- ?app_assoc. repeat split.
Qed.

Lemma discover_then_enter_coyote :
  (__client (self (fresh None coyote_world)) = None
   /\ Bleak.advertised coyote_world BLE_DEVICE_NAME = Some "C1:A9:D8:12:34:56"
   /\ Bleak.reachable coyote_world = true
   /\ In primary_service (Bleak.peer_services coyote_world))
  /\ outcome __aenter__ (after find_device (fresh None coyote_world)) = Returned tt
  /\ connected (after __aenter__ (after find_device (fresh None coyote_world)))
     = true
  /\ calls (after __aenter__ (after find_device (fresh None coyote_world)))
     = [Bleak.FindDeviceByName BLE_DEVICE_NAME; Bleak.Connect].
Proof.
  assert (P : In primary_service (Bleak.peer_services coyote_world))
    by (right; left; reflexivity).
  destruct (discover_then_enter (fresh None coyote_world) "C1:A9:D8:12:34:56"
              eq_refl eq_refl eq_refl P) as (_ & O & C & _ & K).
  split; [repeat split; assumption|].
  split; [exact O|]. split; [exact C | exact K].
Defined.

(** ** Payloads written and read *)

Lemma real_strength_bytes_value (a b : Z) :
  0 <= a <= 2047 -> 0 <= b <= 2047 ->
  exists data,
    real_strength_bytes a b = Returned data
    /\ List.length data = 3%nat
    /\ PyInt.from_bytes data = a * 8192 + b * 4.
Proof.
  intros Ha Hb. unfold real_strength_bytes. cbv zeta.
  destruct (to_bytes_3 (Z.shiftl (Z.shiftl (0 + a) 11 + b) 2)) as (data & E & L & F).
  { shifts_to_div. lia. }
  exists data. split; [exact E|]. split; [exact L|].
  rewrite F. shifts_to_div. lia.
Qed.

Lemma wave_bytes_value (x y z : Z) :
  0 <= x <= 31 -> 0 <= y <= 1023 -> 0 <= z <= 31 ->
  exists data,
    wave_bytes x y z = Returned data
    /\ List.length data = 3%nat
    /\ PyInt.from_bytes data = x * 131072 + y * 128 + z * 4.
Proof.
  intros Hx Hy Hz. unfold wave_bytes. cbv zeta.
  destruct (to_bytes_3 (Z.shiftl (Z.shiftl (Z.shiftl (0 + x) 10 + y) 5 + z) 2))
    as (data & E & L & F).
  { shifts_to_div. lia. }
  exists data. split; [exact E|]. split; [exact L|].
  rewrite F. shifts_to_div. lia.
Qed.

(** X11.  On a live link a write of fields in range returns after one
    transport write of three bytes.  The intensity pair goes to the
    characteristic 955A1504 with the little-endian value
    [a * 8192 + b * 4]; a wave triple goes to the characteristic of its
    channel with the value [x * 131072 + y * 128 + z * 4], which is below
    [2 ^ 22]: the two low bits are 0 in both, and the two high bits of a
    wave payload are 0 as well. *)
Theorem written_payloads (s : state) :
  connected s = true ->
  (forall a b,
      0 <= a <= 2047 -> 0 <= b <= 2047 ->
      exists data,
        _write_real_strength a b s
        = (Returned tt,
           logged (Bleak.WriteGattChar "955A1504-0FE2-F5AA-A094-84B8D4F3E8AD" data) s)
        /\ List.length data = 3%nat
        /\ PyInt.from_bytes data = a * 8192 + b * 4
        /\ PyInt.from_bytes data mod 4 = 0)
  /\ (forall uuid x y z,
         0 <= x <= 31 -> 0 <= y <= 1023 -> 0 <= z <= 31 ->
         exists data,
           __write_wave uuid x y z s
           = (Returned tt, logged (Bleak.WriteGattChar uuid data) s)
           /\ List.length data = 3%nat
           /\ PyInt.from_bytes data = x * 131072 + y * 128 + z * 4
           /\ PyInt.from_bytes data mod 4 = 0
           /\ PyInt.from_bytes data < 4194304).
Proof.
  intros H. split.
  - intros a b Ha Hb.
    destruct (write_real_strength_up a b s Ha Hb H) as (data & E & W).
    destruct (real_strength_bytes_value a b Ha Hb) as (data' & E' & L & F).
    rewrite E in E'. injection E' as <-.
    exists data. split; [exact W|]. split; [exact L|]. split; [exact F|].
    rewrite F. Z.div_mod_to_equations. lia.
  - intros uuid x y z Hx Hy Hz.
    destruct (write_wave_up uuid x y z s Hx Hy Hz H) as (data & E & W).
    destruct (wave_bytes_value x y z Hx Hy Hz) as (data' & E' & L & F).
    rewrite E in E'. injection E' as <-.
    exists data. split; [exact W|]. split; [exact L|]. split; [exact F|].
    rewrite F. split; [Z.div_mod_to_equations; lia | lia].
Qed.

Lemma written_payloads_session :
  connected (session coyote_world) = true
  /\ (0 <= 2047 <= 2047 /\ 0 <= 1 <= 2047)
  /\ exists data,
       calls (after (_write_real_strength 2047 1) (session coyote_world))
       = [Bleak.Connect;
          Bleak.WriteGattChar "955A1504-0FE2-F5AA-A094-84B8D4F3E8AD" data]
       /\ PyInt.from_bytes data = 2047 * 8192 + 1 * 4.
Proof.
  split; [reflexivity|]. split; [lia|].
  destruct (written_payloads (session coyote_world) eq_refl) as (S & _).
  destruct (S 2047 1 ltac:(lia) ltac:(lia)) as (data & W & _ & F & _).
  exists data. unfold after. rewrite W. split; [reflexivity | exact F].
Defined.

(** X12.  A write returns exactly when its fields are in range and the
    link is up; otherwise it raises the assertion's error or
    [NotConnectedError], and nothing else: the conversion to three bytes
    never overflows and the transport is never asked on a link that is
    down. *)
Theorem write_returns_iff (s : state) :
  (forall a b,
      (outcome (_write_real_strength a b) s = Returned tt
       <-> (0 <= a <= 2047 /\ 0 <= b <= 2047) /\ connected s = true)
      /\ (outcome (_write_real_strength a b) s = Returned tt
          \/ outcome (_write_real_strength a b) s
             = Raised (AssertionError (Some "Not a vaild strength"))
          \/ outcome (_write_real_strength a b) s = Raised NotConnectedError))
  /\ (forall uuid x y z,
         (outcome (__write_wave uuid x y z) s = Returned tt
          <-> (0 <= x <= 31 /\ 0 <= y <= 1023 /\ 0 <= z <= 31)
              /\ connected s = true)
         /\ (outcome (__write_wave uuid x y z) s = Returned tt
             \/ outcome (__write_wave uuid x y z) s
                = Raised (AssertionError (Some "Not a vaild wave"))
             \/ outcome (__write_wave uuid x y z) s = Raised NotConnectedError)).
Proof.
  destruct (out_of_range_cases s) as (S & W & _). split.
  - intros a b.
    destruct (Z_le_dec 0 a), (Z_le_dec a 2047), (Z_le_dec 0 b), (Z_le_dec b 2047);
      try (unfold outcome; rewrite (S a b) by lia; cbn [fst];
           split; [split; [discriminate | intros [X _]; lia] | auto]).
    destruct (connected s) eqn:H.
    + destruct (write_real_strength_up a b s ltac:(lia) ltac:(lia) H) as (data & _ & E).
      unfold outcome. rewrite E. cbn [fst]. split; [split; auto; lia | auto].
    + unfold outcome. rewrite write_real_strength_down by (assumption || lia).
      cbn [fst]. split; [split; [discriminate | intros [_ X]; discriminate X] | auto].
  - intros uuid x y z.
    destruct (Z_le_dec 0 x), (Z_le_dec x 31), (Z_le_dec 0 y), (Z_le_dec y 1023),
      (Z_le_dec 0 z), (Z_le_dec z 31);
      try (unfold outcome; rewrite (W uuid x y z) by lia; cbn [fst];
           split; [split; [discriminate | intros [X _]; lia] | auto]).
    destruct (connected s) eqn:H.
    + destruct (write_wave_up uuid x y z s ltac:(lia) ltac:(lia) ltac:(lia) H)
        as (data & _ & E).
      unfold outcome. rewrite E. cbn [fst]. split; [split; auto; lia | auto].
    + unfold outcome. rewrite write_wave_down by (assumption || lia).
      cbn [fst]. split; [split; [discriminate | intros [_ X]; discriminate X] | auto].
Qed.

Lemma from_bytes_app (data extra : list byte) :
  PyInt.from_bytes (data ++ extra)
  = PyInt.from_bytes data + 256 ^ Z.of_nat (List.length data) * PyInt.from_bytes extra.
Proof.
  induction data as [|b rest IH].
  - cbn [app List.length PyInt.from_bytes]. change (256 ^ Z.of_nat 0) with 1. lia.
  - cbn [app List.length PyInt.from_bytes].
    rewrite IH, Nat2Z.inj_succ, Z.pow_succ_r by lia. lia.
Qed.

(** X13.  The decoders take a payload of any length.  The fields cut out
    by a mask are always within their widths, and the leading field is
    never negative; it is within its width exactly when the little-endian
    value of the payload is below [2 ^ 24].  Bytes after the third leave
    the masked fields as they are and add to the leading field: 2048 per
    unit to the first intensity, 32 per unit to the wave's [x]. *)
Theorem decoded_fields_any_length (data : list byte) :
  (exists a b,
      real_strength_of_bytes data = (a, b)
      /\ 0 <= a /\ 0 <= b <= 2047
      /\ (a <= 2047 <-> PyInt.from_bytes data < 16777216))
  /\ (exists x y z,
         wave_of_bytes data = (x, y, z)
         /\ 0 <= x /\ 0 <= y <= 1023 /\ 0 <= z <= 31
         /\ (x <= 31 <-> PyInt.from_bytes data < 16777216))
  /\ (forall extra,
         List.length data = 3%nat ->
         real_strength_of_bytes (data ++ extra)
         = (fst (real_strength_of_bytes data) + 2048 * PyInt.from_bytes extra,
            snd (real_strength_of_bytes data))
         /\ wave_of_bytes (data ++ extra)
            = (fst (fst (wave_of_bytes data)) + 32 * PyInt.from_bytes extra,
               snd (fst (wave_of_bytes data)),
               snd (wave_of_bytes data))).
Proof.
  pose proof (from_bytes_range data) as R.
  split; [|split].
  - eexists _, _. split; [reflexivity|]. revert R. generalize (PyInt.from_bytes data).
    intros v [R _]. shifts_to_div. Z.div_mod_to_equations. lia.
  - eexists _, _, _. split; [reflexivity|]. revert R. generalize (PyInt.from_bytes data).
    intros v [R _]. shifts_to_div. Z.div_mod_to_equations. lia.
  - intros extra L. unfold real_strength_of_bytes, wave_of_bytes. cbv zeta.
    cbn [fst snd]. rewrite from_bytes_app, L.
    change (256 ^ Z.of_nat 3) with 16777216.
    pose proof (from_bytes_range extra) as [X _].
    revert X. generalize (PyInt.from_bytes extra).
    rewrite L in R. change (256 ^ Z.of_nat 3) with 16777216 in R.
    revert R. generalize (PyInt.from_bytes data).
    intros v R k X. shifts_to_div.
    split; [f_equal | f_equal; [f_equal|]]; Z.div_mod_to_equations; lia.
Qed.

Lemma decoded_fields_any_length_four_bytes :
  List.length [x00; x00; x00] = 3%nat
  /\ real_strength_of_bytes ([x00; x00; x00] ++ [x01]) = (2048, 0)
  /\ wave_of_bytes ([x00; x00; x00] ++ [x01]) = (32, 0, 0).
Proof.
  split; [reflexivity|].
  destruct (decoded_fields_any_length [x00; x00; x00]) as (_ & _ & E).
  exact (E [x01] eq_refl).
Defined.

(** X14.  On a live link the battery read and the intensity read ask the
    transport once, for the characteristics 955A1500 and 955A1504, and
    change nothing else.  The battery level is the first byte of the
    payload, between 0 and 255, whatever follows it; on an empty payload
    the read has been made when [IndexError] is raised. *)
Theorem reads_ask_once (s : state) :
  connected s = true ->
  after get_battery_level s
  = logged (Bleak.ReadGattChar "955A1500-0FE2-F5AA-A094-84B8D4F3E8AD") s
  /\ after _get_real_strength s
     = logged (Bleak.ReadGattChar "955A1504-0FE2-F5AA-A094-84B8D4F3E8AD") s
  /\ (forall b rest,
         Bleak.characteristic (world s) BATTERY_LEVEL_UUID = b :: rest ->
         exists level,
           outcome get_battery_level s = Returned level
           /\ level = PyInt.byte_value b /\ 0 <= level <= 255).
Proof.
  intros H. unfold after, outcome.
  rewrite get_battery_level_up, get_real_strength_up by assumption.
  cbn [fst snd]. repeat split.
  intros b rest ->. exists (PyInt.byte_value b).
  pose proof (byte_value_range b). repeat split; lia.
Qed.

Lemma reads_ask_once_session :
  connected (session coyote_world) = true
  /\ calls (after get_battery_level (session coyote_world))
     = [Bleak.Connect;
        Bleak.ReadGattChar "955A1500-0FE2-F5AA-A094-84B8D4F3E8AD"]
  /\ outcome get_battery_level (session coyote_world) = Returned 100.
Proof.
  split; [reflexivity|].
  destruct (reads_ask_once (session coyote_world) eq_refl) as (B & _ & V).
  rewrite B. split; [reflexivity|].
  destruct (V x64 [] eq_refl) as (level & O & -> & _). exact O.
Defined.

(** ** Reading the intensity as a float and writing it back *)

Lemma raw_values_checked (check : Z -> bool) :
  forallb check (map Z.of_nat (seq 0 2048)) = true ->
  forall raw, 0 <= raw <= 2047 -> check raw = true.
Proof.
  intros A raw R. rewrite forallb_forall in A. apply A.
  apply in_map_iff. exists (Z.to_nat raw). split; [lia|]. apply in_seq. lia.
Qed.

(** X15.  The float read for a raw intensity does not always write back
    to the same raw value: for a raw value of a three-byte payload,
    [int((raw / 7) * 7)] is the raw value or one less.  It is the raw value
    up to 60, so over the whole interval of floats from 0.0 to 1.0, and the
    first loss is at 61, which comes back as 60. *)
Theorem strength_read_back (real_strength : Z) :
  0 <= real_strength <= 2047 ->
  exists strength r,
    strength_of_real real_strength = Returned strength
    /\ real_of_strength strength = Returned r
    /\ (r = real_strength \/ r = real_strength - 1)
    /\ (real_strength <= 60 -> r = real_strength).
Proof.
  intros R.
  assert (A : forallb read_back_within_one (map Z.of_nat (seq 0 2048)) = true)
    by (vm_compute; reflexivity).
  pose proof (raw_values_checked _ A real_strength R) as C.
  unfold read_back_within_one, read_back in C.
  destruct (strength_of_real real_strength) as [e|strength]; [discriminate C|].
  destruct (real_of_strength strength) as [e|r] eqn:B; [discriminate C|].
  exists strength, r.
  apply andb_prop in C. destruct C as [C1 C2].
  apply orb_prop in C1, C2.
  rewrite !Z.eqb_eq in C1. rewrite Z.eqb_eq, Z.ltb_lt in C2.
  split; [reflexivity|]. split; [exact B|]. split; [exact C1 | lia].
Qed.

Lemma strength_read_back_at_61 :
  0 <= 61 <= 2047
  /\ read_back 61 = Returned 60
  /\ exists strength r,
       strength_of_real 61 = Returned strength
       /\ real_of_strength strength = Returned r
       /\ (r = 61 \/ r = 61 - 1).
Proof.
  split; [lia|]. split; [reflexivity|].
  destruct (strength_read_back 61 ltac:(lia)) as (strength & r & S & B & W & _).
  exists strength, r. auto.
Defined.

(** X16.  On a live link whose intensity characteristic holds three bytes,
    [get_strength] returns: the two floats are the float quotients of the
    raw fields by 7.0, neither is negative, and a float is at most 1.0
    exactly when its raw field is at most 7. *)
Theorem get_strength_of_three_bytes (s : state) :
  connected s = true ->
  List.length (Bleak.characteristic (world s) PWM_AB2_UUID) = 3%nat ->
  exists a b strength_a strength_b,
    real_strength_of_bytes (Bleak.characteristic (world s) PWM_AB2_UUID) = (a, b)
    /\ get_strength s
       = (Returned (strength_a, strength_b),
          logged (Bleak.ReadGattChar PWM_AB2_UUID) s)
    /\ strength_a = (PrimFloat.of_uint63 (Uint63.of_Z a) / 7)%float
    /\ strength_b = (PrimFloat.of_uint63 (Uint63.of_Z b) / 7)%float
    /\ PrimFloat.leb 0 strength_a = true /\ PrimFloat.leb 0 strength_b = true
    /\ (PrimFloat.leb strength_a 1 = true <-> a <= 7)
    /\ (PrimFloat.leb strength_b 1 = true <-> b <= 7).
Proof.
  intros H L.
  pose proof (real_strength_of_bytes_range _ L) as R.
  pose proof (get_real_strength_up s H) as G.
  destruct (real_strength_of_bytes (Bleak.characteristic (world s) PWM_AB2_UUID))
    as [a b].
  destruct R as [Ra Rb].
  assert (A : forallb unit_interval_is_low (map Z.of_nat (seq 0 2048)) = true)
    by (vm_compute; reflexivity).
  pose proof (raw_values_checked _ A a Ra) as Ca.
  pose proof (raw_values_checked _ A b Rb) as Cb.
  unfold unit_interval_is_low in Ca, Cb.
  pose proof (quotient_by_float_division a Ra) as Qa.
  pose proof (quotient_by_float_division b Rb) as Qb.
  exists a, b, (PrimFloat.of_uint63 (Uint63.of_Z a) / 7)%float,
    (PrimFloat.of_uint63 (Uint63.of_Z b) / 7)%float.
  split; [reflexivity|]. split.
  { unfold get_strength. rewrite (bind_returned _ _ _ _ _ G).
    unfold bind, lift, ret. now rewrite Qa, Qb. }
  rewrite Qa in Ca. rewrite Qb in Cb.
  apply andb_prop in Ca, Cb. destruct Ca as [Pa Ua], Cb as [Pb Ub].
  apply Bool.eqb_prop in Ua, Ub.
  repeat split; try assumption.
  - intros X. rewrite X in Ua. symmetry in Ua. now apply Z.leb_le in Ua.
  - intros X. rewrite Ua. now apply Z.leb_le.
  - intros X. rewrite X in Ub. symmetry in Ub. now apply Z.leb_le in Ub.
  - intros X. rewrite Ub. now apply Z.leb_le.
Qed.

Lemma get_strength_of_three_bytes_session :
  (connected (session coyote_world) = true
   /\ List.length (Bleak.characteristic (world (session coyote_world)) PWM_AB2_UUID)
      = 3%nat)
  /\ exists strength_a strength_b,
       outcome get_strength (session coyote_world)
       = Returned (strength_a, strength_b)
       /\ PrimFloat.leb strength_a 1 = true.
Proof.
  split; [split; reflexivity|].
  destruct (get_strength_of_three_bytes (session coyote_world) eq_refl eq_refl)
    as (a & b & fa & fb & D & G & _ & _ & _ & _ & Ua & _).
  exists fa, fb. unfold outcome. rewrite G. split; [reflexivity|].
  apply Ua. cbv in D. injection D as <- _. lia.
Defined.
